(** * Freedom-index dashboard: ingestion and aggregation

    Shallow embedding of the spreadsheet-row normalisation of
    [FileUpload.processExcelFile] and of the aggregations of [StatsCards],
    [DataVisualization] and [DataTable]. *)

From Stdlib Require Import String Ascii List ZArith NArith Lia Bool.
From Stdlib Require Import QArith Qround Qabs Qpower Lqa Permutation Sorted.
Import ListNotations.
Open Scope string_scope.

(* ------------------------------------------------------------------ *)
(** ** Double-precision numbers

    JavaScript numbers are doubles.  The values of this program are
    integers (the cells, counts and sums) and quotients of integers; they
    are kept exact here, as [Z] and [Q], and every operation whose result
    is not always a double is followed by the rounding of IEEE 754
    binary64. *)

Module Double.
Local Open Scope Z_scope.

(** [2^k] as a rational, for any integer [k]. *)
Definition pow2 (k : Z) : Q :=
  if 0 <=? k then inject_Z (2 ^ k) else 1 # Z.to_pos (2 ^ (- k)).

(** The integer nearest to [q], ties to the even one. *)
Definition round_half_even (q : Q) : Z :=
  let f := Qfloor q in
  match Qcompare (q - inject_Z f) (1 # 2) with
  | Lt => f
  | Gt => f + 1
  | Eq => if Z.even f then f else f + 1
  end.

(** The double nearest to [q], ties to even (IEEE 754 binary64 rounding,
    with subnormals): the result of a floating-point operation whose exact
    value is [q].  [e] is the exponent with [2^e <= |q| < 2^(e+1)], and the
    significand keeps 53 bits.  The values rounded here are means of the
    records' numbers, far below the overflow threshold 2^1024. *)
Definition to_double (q : Q) : Q :=
  let a := Z.abs (Qnum q) in
  let b := Zpos (Qden q) in
  if a =? 0 then 0 else
  let la := Z.log2 a in
  let lb := Z.log2 b in
  let e := la - lb - (if a * 2 ^ lb <? b * 2 ^ la then 1 else 0) in
  let k := Z.max (e - 52) (-1074) in
  let m := round_half_even (inject_Z a / inject_Z b / pow2 k) in
  (inject_Z (Z.sgn (Qnum q) * m) * pow2 k)%Q.


(** The double nearest to the integer [z], itself an integer: [z] when
    [|z| <= 2^53], else [z] rounded to 53 significant bits, ties to even.
    (Integers of 2^1024 or more, [Infinity] in JavaScript, would take a
    cell of more than 300 digits; they are not modelled.) *)
Definition round_int (z : Z) : Z :=
  let a := Z.abs z in
  if a <=? 2 ^ 53 then z
  else
    let k := Z.log2 a - 52 in
    Z.sgn z * round_half_even (inject_Z a / inject_Z (2 ^ k)) * 2 ^ k.

(** [a + b] on integer-valued doubles. *)
Definition fadd (a b : Z) : Z := round_int (a + b).

End Double.

Import Double.

(* ------------------------------------------------------------------ *)
(** ** JavaScript scalar values *)

Module Js.
Local Open Scope Z_scope.

(** The scalar cell values produced by [XLSX.utils.sheet_to_json]:
    numbers are integer-valued (non-integral numbers are not modelled). *)
Inductive jsval : Type :=
| JUndef
| JStr (s : string)
| JNum (n : Z)
| JBool (b : bool).

(** JavaScript truthiness: [undefined], [""], [0] and [false] are falsy. *)
Definition truthy (v : jsval) : bool :=
  match v with
  | JUndef => false
  | JStr s => negb (String.eqb s "")
  | JNum n => negb (Z.eqb n 0)
  | JBool b => b
  end.

(** [a || b] *)
Definition js_or (a b : jsval) : jsval := if truthy a then a else b.

Definition digit_char (d : N) : ascii := ascii_of_N (48 + d).

Fixpoint digits_aux (fuel : nat) (n : N) (acc : list ascii) : list ascii :=
  match fuel with
  | O => acc
  | S f =>
      let acc' := digit_char (N.modulo n 10) :: acc in
      if N.ltb n 10 then acc' else digits_aux f (N.div n 10) acc'
  end.

(** Decimal digits of a natural number, most significant first. *)
Definition digits (n : N) : list ascii := digits_aux (S (N.size_nat n)) n [].

Fixpoint string_of_list (l : list ascii) : string :=
  match l with
  | [] => EmptyString
  | c :: t => String c (string_of_list t)
  end.

Definition N_to_string (n : N) : string := string_of_list (digits n).

(** Template-literal conversion of a non-negative integer ([`${index}`]). *)
Definition nat_to_string (n : nat) : string := N_to_string (N.of_nat n).

Fixpoint drop_trailing_zeros_rev (l : list ascii) : list ascii :=
  match l with
  | c :: t => if Ascii.eqb c "0"%char then drop_trailing_zeros_rev t else l
  | [] => []
  end.

(** [Number::toString] on an integer-valued number: plain decimal below
    10^21, exponent notation ["d.ddde+N"] from 10^21 on. *)
Definition num_to_string (z : Z) : string :=
  let sign := if Z.ltb z 0 then "-" else "" in
  let a := Z.to_N (Z.abs z) in
  if N.ltb a (N.pow 10 21) then sign ++ N_to_string a
  else
    match digits a with
    | [] => sign
    | d :: rest =>
        let frac := rev (drop_trailing_zeros_rev (rev rest)) in
        sign ++ String d EmptyString
             ++ (match frac with [] => "" | _ => "." ++ string_of_list frac end)
             ++ "e+" ++ N_to_string (N.of_nat (length rest))
    end.

(** [String(v)] *)
Definition to_string (v : jsval) : string :=
  match v with
  | JUndef => "undefined"
  | JStr s => s
  | JNum n => num_to_string n
  | JBool true => "true"
  | JBool false => "false"
  end.

(** Strings are UTF-8 byte strings.  The one-byte white space skipped by
    [parseInt]: space, tab, line feed, vertical tab, form feed, carriage
    return. *)
Definition is_space (c : ascii) : bool :=
  let n := nat_of_ascii c in
  (Nat.eqb n 32 || Nat.eqb n 9 || Nat.eqb n 10 || Nat.eqb n 11
   || Nat.eqb n 12 || Nat.eqb n 13)%bool.

(** First bytes of the UTF-8 forms of the other white space characters
    and line terminators of JavaScript. *)
Definition space_lead (c : ascii) : bool :=
  let n := nat_of_ascii c in
  (Nat.eqb n 194 || Nat.eqb n 225 || Nat.eqb n 226 || Nat.eqb n 227 || Nat.eqb n 239)%bool.

(** U+00A0 (no-break space), bytes C2 A0. *)
Definition space2 (c1 c2 : ascii) : bool :=
  (Nat.eqb (nat_of_ascii c1) 194 && Nat.eqb (nat_of_ascii c2) 160)%bool.

(** U+1680, U+2000 to U+200A, U+2028, U+2029, U+202F, U+205F, U+3000 and
    U+FEFF: the other space separators (Zs), the line and paragraph
    separators and the byte order mark, as three UTF-8 bytes. *)
Definition space3 (c1 c2 c3 : ascii) : bool :=
  let a := nat_of_ascii c1 in
  let b := nat_of_ascii c2 in
  let c := nat_of_ascii c3 in
  (Nat.eqb a 225 && Nat.eqb b 154 && Nat.eqb c 128
   || Nat.eqb a 226 && Nat.eqb b 128
      && (Nat.leb 128 c && Nat.leb c 138 || Nat.eqb c 168 || Nat.eqb c 169 || Nat.eqb c 175)
   || Nat.eqb a 226 && Nat.eqb b 129 && Nat.eqb c 159
   || Nat.eqb a 227 && Nat.eqb b 128 && Nat.eqb c 128
   || Nat.eqb a 239 && Nat.eqb b 187 && Nat.eqb c 191)%bool.

(** Leading white space and line terminators removed. *)
Fixpoint trim_start (s : string) : string :=
  match s with
  | EmptyString => EmptyString
  | String c t =>
      if is_space c then trim_start t
      else if space_lead c then
        match t with
        | String c2 t2 =>
            if space2 c c2 then trim_start t2
            else match t2 with
                 | String c3 t3 => if space3 c c2 c3 then trim_start t3 else s
                 | EmptyString => s
                 end
        | EmptyString => s
        end
      else s
  end.

(** Value of a digit character in the given radix (10 or 16). *)
Definition digit_value (radix : Z) (c : ascii) : option Z :=
  let n := Z.of_nat (nat_of_ascii c) in
  let v :=
    if (48 <=? n) && (n <=? 57) then Some (n - 48)
    else if (97 <=? n) && (n <=? 122) then Some (n - 87)
    else if (65 <=? n) && (n <=? 90) then Some (n - 55)
    else None in
  match v with
  | Some d => if d <? radix then Some d else None
  | None => None
  end%Z.

(** Longest prefix of digits: [None] when there is none, else its value. *)
Fixpoint read_digits (radix : Z) (s : string) (acc : option Z) : option Z :=
  match s with
  | EmptyString => acc
  | String c t =>
      match digit_value radix c with
      | Some d => read_digits radix t (Some (radix * match acc with Some a => a | None => 0 end + d)%Z)
      | None => acc
      end
  end.

(** [parseInt(v)] with the radix argument absent; [None] is [NaN].  The
    digits of a string are read exactly and the value is rounded to a
    double; the decimal form of a number (a double) reads back to the
    number itself. *)
Definition parseInt (v : jsval) : option Z :=
  let s := trim_start (to_string v) in
  let '(sign, s1) :=
    match s with
    | String "-" t => ((-1)%Z, t)
    | String "+" t => (1%Z, t)
    | _ => (1%Z, s)
    end in
  let '(radix, s2) :=
    match s1 with
    | String "0" (String x t) =>
        if (Ascii.eqb x "x" || Ascii.eqb x "X")%bool then (16%Z, t) else (10%Z, s1)
    | _ => (10%Z, s1)
    end in
  match read_digits radix s2 None with
  | Some n => Some (match v with JNum _ => sign * n | _ => round_int (sign * n) end)
  | None => None
  end.

(** [isNaN(x) ? d : x] *)
Definition nan_or (x : option Z) (d : Z) : Z :=
  match x with Some n => n | None => d end.

(** A plain object, as its own properties in order. *)
Definition object := list (string * jsval).

(** Property read [o.k]: [undefined] when absent. *)
Fixpoint get (o : object) (k : string) : jsval :=
  match o with
  | [] => JUndef
  | (k', v) :: t => if String.eqb k' k then v else get t k
  end.

(** Property write [o.k = v]: an existing property keeps its place. *)
Fixpoint set (o : object) (k : string) (v : jsval) : object :=
  match o with
  | [] => [(k, v)]
  | (k', v') :: t => if String.eqb k' k then (k, v) :: t else (k', v') :: set t k v
  end.

(** Object literal [{ ...base, ...row }]: the spread copies the properties
    of [row] in order, overwriting those already present. *)
Definition spread (base row : object) : object :=
  fold_left (fun o kv => set o (fst kv) (snd kv)) row base.

End Js.

Import Js.

(* ------------------------------------------------------------------ *)
(** ** Ingestion: [processExcelFile]'s row transformation *)

Module FileUpload.
Local Open Scope Z_scope.

(** A decoded spreadsheet row. *)
Definition RawRow := object.

Section Transform.

(** [new Date().getFullYear()] at the time of the upload. *)
Variable currentYear : Z.

(** The callback of [jsonData.map((row, index) => ...)]. *)
Definition transformRow (index : nat) (row : RawRow) : object :=
  let country := js_or (get row "Pays") (js_or (get row "Country")
                   (js_or (get row "country") (JStr ("Pays " ++ nat_to_string index)))) in
  let region := js_or (get row "Region") (js_or (get row "region") (JStr "Non spécifiée")) in
  let year := parseInt (js_or (get row "Année") (js_or (get row "Year")
                (js_or (get row "year") (JNum currentYear)))) in
  let status := js_or (get row "Status") (js_or (get row "status") (JStr "Non spécifié")) in
  let politicalRights := parseInt (js_or (get row "Droits politiques")
                           (js_or (get row "Political Rights")
                           (js_or (get row "politicalRights") (JNum 0)))) in
  let civilLiberties := parseInt (js_or (get row "Libertés civiles")
                          (js_or (get row "Civil Liberties")
                          (js_or (get row "civilLiberties") (JNum 0)))) in
  spread
    [("country", country);
     ("region", region);
     ("year", JNum (nan_or year currentYear));
     ("status", status);
     ("politicalRights", JNum (nan_or politicalRights 0));
     ("civilLiberties", JNum (nan_or civilLiberties 0));
     ("totalScore", JNum (fadd (nan_or politicalRights 0) (nan_or civilLiberties 0)))]
    row.

Fixpoint mapi_from (i : nat) (rows : list RawRow) : list object :=
  match rows with
  | [] => []
  | r :: t => transformRow i r :: mapi_from (S i) t
  end.

(** [transformedData]. *)
Definition transformedData (jsonData : list RawRow) : list object := mapi_from 0 jsonData.

End Transform.

End FileUpload.

(* ------------------------------------------------------------------ *)
(** ** Records, checked arithmetic and shared helpers *)

Module Agg.
Local Open Scope Z_scope.

(** The typed fields of [FreedomData] read by the aggregations. *)
Record FreedomData := mkFreedomData {
  country : string;
  region : string;
  year : Z;
  status : string;
  politicalRights : Z;
  civilLiberties : Z;
  totalScore : Z }.

(** Results of the aggregation code.  A quotient is the exact rational
    [jsdiv] returns, rounded by [to_double] where the code goes on with the
    double; every division goes through [jsdiv], which reports a zero divisor as
    [DivZero], so an [Ok] result certifies that no division by zero was
    performed. *)
Inductive res (A : Type) : Type :=
| Ok (a : A)
| DivZero.
Arguments Ok {A} a.
Arguments DivZero {A}.

Definition bind {A B} (m : res A) (k : A -> res B) : res B :=
  match m with Ok a => k a | DivZero => DivZero end.

Notation "'let*' x := m 'in' k" := (bind m (fun x => k))
  (at level 200, x name, m at level 100, k at level 200).

(** [a < b] on numbers. *)
Definition Qltb (a b : Q) : bool := negb (Qle_bool b a).

Definition jsdiv (a b : Q) : res Q :=
  if Qeq_bool b 0 then DivZero else Ok (a / b)%Q.

Fixpoint mapM {A B} (f : A -> res B) (l : list A) : res (list B) :=
  match l with
  | [] => Ok []
  | x :: t => let* y := f x in let* ys := mapM f t in Ok (y :: ys)
  end.

(** [x.toFixed(1)], as a number of tenths: the nearest multiple of 0.1,
    ties away from zero. *)
Definition toFixed1 (x : Q) : Z :=
  if Qltb x 0 then - Qfloor (- (x * 10) + (1 # 2))
  else Qfloor (x * 10 + (1 # 2)).

(** [data.reduce((sum, d) => sum + f(d), 0)] *)
Definition reduce_sum (f : FreedomData -> Z) (data : list FreedomData) : Z :=
  fold_left (fun sum d => fadd sum (f d)) data 0.

(** [data.filter(p).length] *)
Definition count (p : FreedomData -> bool) (data : list FreedomData) : Z :=
  Z.of_nat (length (filter p data)).

(** Plain objects used as dictionaries, properties in insertion order. *)
Fixpoint lookup {K V} (eqb : K -> K -> bool) (acc : list (K * V)) (k : K) : option V :=
  match acc with
  | [] => None
  | (k', v) :: t => if eqb k' k then Some v else lookup eqb t k
  end.

Fixpoint assign {K V} (eqb : K -> K -> bool) (acc : list (K * V)) (k : K) (v : V)
  : list (K * V) :=
  match acc with
  | [] => [(k, v)]
  | (k', v') :: t => if eqb k' k then (k, v) :: t else (k', v') :: assign eqb t k v
  end.

(** [Array.prototype.sort] with a comparator: a stable insertion sort that
    keeps [a] before [b] unless [cmp a b > 0]. *)
Fixpoint insert {A} (cmp : A -> A -> Z) (x : A) (l : list A) : list A :=
  match l with
  | [] => [x]
  | y :: t => if cmp y x <=? 0 then y :: insert cmp x t else x :: l
  end.

Definition sort {A} (cmp : A -> A -> Z) (l : list A) : list A :=
  fold_left (fun acc x => insert cmp x acc) l [].

(** The default comparator of [sort()]: by the values' string forms. *)
Definition default_cmp (a b : Z) : Z :=
  match String.compare (num_to_string a) (num_to_string b) with
  | Lt => -1
  | Eq => 0
  | Gt => 1
  end.

Definition Libre := "Libre".
Definition PartiellementLibre := "Partiellement libre".
Definition PasLibre := "Pas libre".

(** [d.status === s] *)
Definition has_status (s : string) (d : FreedomData) : bool := String.eqb (status d) s.

End Agg.

Import Agg.

(* ------------------------------------------------------------------ *)
(** ** [StatsCards] *)

Module StatsCards.
Local Open Scope Z_scope.

(** Per-year accumulator of the trend computation. *)
Record YearData := mkYearData {
  yd_totalScore : Z; yd_count : Z; yd_political : Z; yd_civil : Z }.

Definition yd_zero := mkYearData 0 0 0 0.

Definition yearlyData (data : list FreedomData) : list (Z * YearData) :=
  fold_left (fun acc item =>
    let y := year item in
    let e := match lookup Z.eqb acc y with Some e => e | None => yd_zero end in
    assign Z.eqb acc y
      (mkYearData (fadd (yd_totalScore e) (totalScore item)) (yd_count e + 1)
                  (fadd (yd_political e) (politicalRights item)) (fadd (yd_civil e) (civilLiberties item))))
    data [].

Definition year_entry (yd : list (Z * YearData)) (y : Z) : YearData :=
  match lookup Z.eqb yd y with Some e => e | None => yd_zero end.

(** The trend of [StatsCards]: [years] sorted by [sort()] with no
    comparator, then first against last.  The two means and the sums
    [firstAvg + 0.5] and [firstAvg - 0.5] are doubles. *)
Definition trendOf (data : list FreedomData) : res string :=
  let yd := yearlyData data in
  let years := sort default_cmp (map fst yd) in
  match years with
  | [] | [_] => Ok "stable"
  | y0 :: _ =>
      let firstYear := year_entry yd y0 in
      let lastYear := year_entry yd (last years y0) in
      let* firstAvg := jsdiv (inject_Z (yd_totalScore firstYear)) (inject_Z (yd_count firstYear)) in
      let* lastAvg := jsdiv (inject_Z (yd_totalScore lastYear)) (inject_Z (yd_count lastYear)) in
      let firstAvg := to_double firstAvg in
      let lastAvg := to_double lastAvg in
      if Qltb (to_double (firstAvg + (1 # 2))) lastAvg then Ok "improving"
      else if Qltb lastAvg (to_double (firstAvg - (1 # 2))) then Ok "declining"
      else Ok "stable"
  end.

Record Stats := mkStats {
  totalCountries : Z;
  freeCountries : Z;
  partiallyFreeCountries : Z;
  notFreeCountries : Z;
  avgPoliticalRights : Z;
  avgCivilLiberties : Z;
  avgTotalScore : Z;
  uniqueRegions : Z;
  uniqueYears : Z;
  trend : string;
  freePercentage : Z;
  partiallyFreePercentage : Z;
  notFreePercentage : Z }.

(** [stats]: [None] is the [null] of an empty collection.  The averages
    are doubles.  The percentages are the exact shares rounded to a tenth;
    the doubles [(c / total) * 100] round to the same tenth except where
    the exact share ends in exactly 5 hundredths. *)
Definition stats (data : list FreedomData) : res (option Stats) :=
  if Nat.eqb (length data) 0 then Ok None else
  let total := Z.of_nat (length data) in
  let free := count (has_status Libre) data in
  let part := count (has_status PartiellementLibre) data in
  let notf := count (has_status PasLibre) data in
  let* avgPR := jsdiv (inject_Z (reduce_sum politicalRights data)) (inject_Z total) in
  let* avgCL := jsdiv (inject_Z (reduce_sum civilLiberties data)) (inject_Z total) in
  let* avgTS := jsdiv (inject_Z (reduce_sum totalScore data)) (inject_Z total) in
  let regions := Z.of_nat (length (nodup string_dec (map region data))) in
  let years := Z.of_nat (length (nodup Z.eq_dec (map year data))) in
  let* tr := trendOf data in
  let* fp := jsdiv (inject_Z free) (inject_Z total) in
  let* pp := jsdiv (inject_Z part) (inject_Z total) in
  let* np := jsdiv (inject_Z notf) (inject_Z total) in
  Ok (Some (mkStats total free part notf
              (toFixed1 (to_double avgPR)) (toFixed1 (to_double avgCL)) (toFixed1 (to_double avgTS))
              regions years tr
              (toFixed1 (fp * 100)) (toFixed1 (pp * 100)) (toFixed1 (np * 100)))).

End StatsCards.

(* ------------------------------------------------------------------ *)
(** ** [DataVisualization] *)

Module DataVisualization.
Local Open Scope Z_scope.

(** The properties that an object created by [{}] inherits from
    [Object.prototype]. *)
Definition proto_names : list string :=
  ["constructor"; "__defineGetter__"; "__defineSetter__"; "hasOwnProperty";
   "__lookupGetter__"; "__lookupSetter__"; "isPrototypeOf"; "propertyIsEnumerable";
   "toString"; "valueOf"; "__proto__"; "toLocaleString"].

Definition inherited (k : string) : bool := existsb (String.eqb k) proto_names.

(** [String(Object.prototype[k])] for an inherited property [k]: the
    prototype object itself for [__proto__], a built-in function otherwise. *)
Definition inherited_string (k : string) : string :=
  if String.eqb k "__proto__" then "[object Object]"
  else if String.eqb k "constructor" then "function Object() { [native code] }"
  else "function " ++ k ++ "() { [native code] }".

(** [acc[k]] on an object created by [{}]: the own property, else the
    inherited one, else [undefined].  An inherited object or function is
    truthy and [+] turns it into its string, so it is represented by that
    string. *)
Definition dict_get (acc : object) (k : string) : jsval :=
  match lookup String.eqb acc k with
  | Some v => v
  | None => if inherited k then JStr (inherited_string k) else JUndef
  end.

(** [acc[k] = v]: creates or updates an own property (in creation order),
    except for [__proto__], whose setter ignores a value that is not an
    object. *)
Definition dict_set (acc : object) (k : string) (v : jsval) : object :=
  if String.eqb k "__proto__" then acc else assign String.eqb acc k v.

(** [v + 1] for the values met here: a number is incremented, a string
    gets "1" appended.  ([undefined + 1] is [NaN]; it does not occur, the
    operand being [x || 0].) *)
Definition plus_one (v : jsval) : jsval :=
  match v with
  | JNum n => JNum (n + 1)
  | JStr s => JStr (s ++ "1")
  | JBool b => JNum ((if b then 1 else 0) + 1)
  | JUndef => JUndef
  end.

(** [data.reduce((acc, item) => { acc[key(item)] = (acc[key(item)] || 0) + 1; return acc }, {})] *)
Definition tally (key : FreedomData -> string) (data : list FreedomData) : object :=
  fold_left (fun acc item =>
    dict_set acc (key item) (plus_one (js_or (dict_get acc (key item)) (JNum 0))))
    data [].

(** The property key [k] as an array index: the canonical decimal form of
    an integer from 0 to 2^32 - 2. *)
Definition array_index (k : string) : option Z :=
  match read_digits 10 k None with
  | Some n => if (n <? 4294967295) && String.eqb (num_to_string n) k then Some n else None
  | None => None
  end.

Definition is_index (kv : string * jsval) : bool :=
  match array_index (fst kv) with Some _ => true | None => false end.

(** [Object.entries(o)]: the array-index keys in increasing order, then
    the other keys in creation order. *)
Definition object_entries (o : object) : list (string * jsval) :=
  sort (fun a b => match array_index (fst a), array_index (fst b) with
                   | Some x, Some y => x - y
                   | _, _ => 0
                   end) (filter is_index o)
  ++ filter (fun kv => negb (is_index kv)) o.

(** [se_percentage] is [None] for "NaN", the [toFixed(1)] of a text value
    divided by [data.length]. *)
Record StatusEntry := mkStatusEntry {
  se_name : string; se_value : jsval; se_percentage : option Z }.

Definition statusDistribution (data : list FreedomData) : res (list StatusEntry) :=
  mapM (fun nv =>
    match snd nv with
    | JNum v =>
        let* p := jsdiv (inject_Z v) (inject_Z (Z.of_nat (length data))) in
        Ok (mkStatusEntry (fst nv) (JNum v) (Some (toFixed1 (to_double (to_double p * 100)))))
    | v => Ok (mkStatusEntry (fst nv) v None)
    end)
    (object_entries (tally status data)).

(** String lengths count UTF-16 code units: one per character of one to
    three UTF-8 bytes, two for a four-byte character, none for a
    continuation byte. *)
Definition utf16_units (c : ascii) : nat :=
  let n := nat_of_ascii c in
  if Nat.ltb n 128 then 1 else if Nat.ltb n 192 then 0 else if Nat.ltb n 240 then 1 else 2.

Fixpoint utf16_length (s : string) : nat :=
  match s with
  | EmptyString => 0
  | String c t => utf16_units c + utf16_length t
  end.

(** [s.substring(0, n)]: the characters that fit in [n] code units (a
    four-byte character cut in the middle, a lone surrogate in JavaScript,
    has no UTF-8 form and is left out). *)
Fixpoint utf16_prefix (n : nat) (s : string) : string :=
  match s with
  | EmptyString => EmptyString
  | String c t =>
      let u := utf16_units c in
      if Nat.eqb u 0 then String c (utf16_prefix n t)
      else if Nat.leb u n then String c (utf16_prefix (n - u) t)
      else EmptyString
  end.

(** [re_count] is a number, or a string for a region named like an
    inherited property other than [__proto__]. *)
Record RegionEntry := mkRegionEntry {
  re_name : string; re_fullName : string; re_count : jsval; re_avgPolitical : Q; re_avgCivil : Q }.

Definition in_region (name : string) (d : FreedomData) : bool := String.eqb (region d) name.

(** [(a, b) => b.count - a.count]; a string count gives [NaN], which the
    sort takes as 0. *)
Definition count_order (a b : RegionEntry) : Z :=
  match re_count b, re_count a with
  | JNum x, JNum y => x - y
  | _, _ => 0
  end.

Definition regionDistribution (data : list FreedomData) : res (list RegionEntry) :=
  let* entries := mapM (fun nc =>
    let name := fst nc in
    let members := filter (in_region name) data in
    let* ap := jsdiv (inject_Z (reduce_sum politicalRights members)) (inject_Z (Z.of_nat (length members))) in
    let* ac := jsdiv (inject_Z (reduce_sum civilLiberties members)) (inject_Z (Z.of_nat (length members))) in
    Ok (mkRegionEntry
          (if Nat.ltb 15 (utf16_length name) then utf16_prefix 15 name ++ "..." else name)
          name (snd nc) (to_double ap) (to_double ac)))
    (object_entries (tally region data)) in
  Ok (firstn 10 (sort count_order entries)).

(** Per-year accumulator of [yearlyTrends]: [avgPolitical] and [avgCivil]
    hold sums until the final [map]. *)
Record YearAcc := mkYearAcc {
  ya_year : Z; ya_totalCountries : Z; ya_avgPolitical : Z; ya_avgCivil : Z;
  ya_libre : Z; ya_partLibre : Z; ya_pasLibre : Z }.

Definition add_item (e : YearAcc) (item : FreedomData) : YearAcc :=
  let s := status item in
  mkYearAcc (ya_year e) (ya_totalCountries e + 1)
    (fadd (ya_avgPolitical e) (politicalRights item)) (fadd (ya_avgCivil e) (civilLiberties item))
    (if String.eqb s Libre then ya_libre e + 1 else ya_libre e)
    (if String.eqb s Libre then ya_partLibre e
     else if String.eqb s PartiellementLibre then ya_partLibre e + 1 else ya_partLibre e)
    (if String.eqb s Libre then ya_pasLibre e
     else if String.eqb s PartiellementLibre then ya_pasLibre e else ya_pasLibre e + 1).

Definition yearData (data : list FreedomData) : list (Z * YearAcc) :=
  fold_left (fun acc item =>
    let y := year item in
    let e := match lookup Z.eqb acc y with
             | Some e => e
             | None => mkYearAcc y 0 0 0 0 0 0
             end in
    assign Z.eqb acc y (add_item e item))
    data [].

(** One point of the yearly series; averages are [toFixed(1)] tenths. *)
Record YearPoint := mkYearPoint {
  yp_year : Z; totalCountries : Z; avgPolitical : Z; avgCivil : Z;
  libre : Z; partLibre : Z; pasLibre : Z }.

(** [(item.avgPolitical / item.totalCountries).toFixed(1)]: the quotient
    is a double. *)
Definition finish (e : YearAcc) : res YearPoint :=
  let* ap := jsdiv (inject_Z (ya_avgPolitical e)) (inject_Z (ya_totalCountries e)) in
  let* ac := jsdiv (inject_Z (ya_avgCivil e)) (inject_Z (ya_totalCountries e)) in
  Ok (mkYearPoint (ya_year e) (ya_totalCountries e) (toFixed1 (to_double ap)) (toFixed1 (to_double ac))
        (ya_libre e) (ya_partLibre e) (ya_pasLibre e)).

Definition yearlyTrends (data : list FreedomData) : res (list YearPoint) :=
  let* points := mapM finish (map snd (yearData data)) in
  Ok (sort (fun a b => yp_year a - yp_year b) points).

End DataVisualization.

(* ------------------------------------------------------------------ *)
(** ** [DataTable]: sorting *)

Module DataTable.
Local Open Scope Z_scope.

Inductive column := Country | Region | Year | Status | PoliticalRights | CivilLiberties | TotalScore.
Inductive direction := Asc | Desc.

(** [a[sortColumn]] *)
Definition field (c : column) (d : FreedomData) : jsval :=
  match c with
  | Country => JStr (country d)
  | Region => JStr (region d)
  | Year => JNum (year d)
  | Status => JStr (status d)
  | PoliticalRights => JNum (politicalRights d)
  | CivilLiberties => JNum (civilLiberties d)
  | TotalScore => JNum (totalScore d)
  end.

(** [toLowerCase] on ASCII letters. *)
Definition lower_char (c : ascii) : ascii :=
  let n := nat_of_ascii c in
  if (Nat.leb 65 n && Nat.leb n 90)%bool then ascii_of_nat (n + 32) else c.

Fixpoint toLowerCase (s : string) : string :=
  match s with
  | EmptyString => EmptyString
  | String c t => String (lower_char c) (toLowerCase t)
  end.

(** Strings of ASCII characters: on them [toLowerCase] above is the
    JavaScript one, and the byte order of [String.ltb] is the code-unit
    order of [<]. *)
Definition is_ascii (s : string) : bool :=
  forallb (fun c => Nat.ltb (nat_of_ascii c) 128) (list_ascii_of_string s).

Definition compareRows (c : column) (dir : direction) (a b : FreedomData) : Z :=
  match field c a, field c b with
  | JNum x, JNum y => match dir with Asc => x - y | Desc => y - x end
  | av, bv =>
      let aString := toLowerCase (to_string av) in
      let bString := toLowerCase (to_string bv) in
      match dir with
      | Asc => if String.ltb aString bString then -1
               else if String.ltb bString aString then 1 else 0
      | Desc => if String.ltb bString aString then -1
                else if String.ltb aString bString then 1 else 0
      end
  end.

(** Arrays live in a heap indexed by location. *)
Definition loc := nat.
Definition heap := list (list FreedomData).

Fixpoint heap_write (h : heap) (l : loc) (a : list FreedomData) : heap :=
  match h, l with
  | [], _ => []
  | _ :: t, O => a :: t
  | b :: t, S l' => b :: heap_write t l' a
  end.

Definition heap_read (h : heap) (l : loc) : list FreedomData :=
  match nth_error h l with Some a => a | None => [] end.

(** [[...data]]: a fresh array holding the elements of [data]. *)
Definition copy (h : heap) (data : loc) : heap * loc :=
  ((h ++ [heap_read h data])%list, length h).

(** [arr.sort(cmp)], in place. *)
Definition sort_in_place (h : heap) (arr : loc) (cmp : FreedomData -> FreedomData -> Z) : heap :=
  heap_write h arr (sort cmp (heap_read h arr)).

(** [sortedData]: returns the heap and the location of the resulting array. *)
Definition sortedData (h : heap) (data : loc) (sortColumn : option column) (sortDirection : direction)
  : heap * loc :=
  match sortColumn with
  | None => (h, data)
  | Some c =>
      let '(h1, arr) := copy h data in
      (sort_in_place h1 arr (compareRows c sortDirection), arr)
  end.

End DataTable.

(* ------------------------------------------------------------------ *)
(** ** [DataTable]: header clicks and pagination *)

Module DataTablePaging.
Import DataTable.
Local Open Scope nat_scope.

Definition column_eqb (a b : column) : bool :=
  match a, b with
  | Country, Country | Region, Region | Year, Year | Status, Status
  | PoliticalRights, PoliticalRights | CivilLiberties, CivilLiberties
  | TotalScore, TotalScore => true
  | _, _ => false
  end.

(** The component state [(sortColumn, sortDirection)]; initially [(null, "asc")]. *)
Definition SortState : Type := (option column * direction)%type.

(** [handleSort(column)] *)
Definition handleSort (st : SortState) (c : column) : SortState :=
  let '(sortColumn, sortDirection) := st in
  match sortColumn with
  | Some c' =>
      if column_eqb c' c
      then (sortColumn, match sortDirection with Asc => Desc | Desc => Asc end)
      else (Some c, Asc)
  | None => (Some c, Asc)
  end.

(** [arr.slice(start, end)] for non-negative [start] and [end]. *)
Definition slice {A} (l : list A) (start end_ : nat) : list A :=
  firstn (end_ - start) (skipn start l).

(** [paginatedData]; [currentPage] is at least 1 (see [page_step]). *)
Definition paginatedData (sortedData : list FreedomData) (currentPage itemsPerPage : nat)
  : list FreedomData :=
  let startIndex := (currentPage - 1) * itemsPerPage in
  slice sortedData startIndex (startIndex + itemsPerPage).

(** [Math.ceil(length / itemsPerPage)], for [itemsPerPage > 0]. *)
Definition totalPages (length itemsPerPage : nat) : nat :=
  (length + itemsPerPage - 1) / itemsPerPage.

(** The two ends of "Affichage de ... à ... sur ... résultats". *)
Definition showingFrom (currentPage itemsPerPage : nat) : nat :=
  (currentPage - 1) * itemsPerPage + 1.

Definition showingTo (currentPage itemsPerPage length : nat) : nat :=
  Nat.min (currentPage * itemsPerPage) length.

(** The numbered buttons: [Array.from({ length: Math.min(totalPages, 5) }, (_, i) => i + 1)]. *)
Definition pageButtons (totalPages : nat) : list nat :=
  map (fun i => i + 1) (seq 0 (Nat.min totalPages 5)).

(** Clicks on the pagination bar, which is shown when [totalPages > 1]. *)
Inductive page_event :=
| Prev                (* "Précédent", disabled on page 1 *)
| Next                (* "Suivant", disabled on the last page *)
| Goto (page : nat).  (* a numbered button *)

Definition page_enabled (totalPages currentPage : nat) (e : page_event) : bool :=
  match e with
  | Prev => negb (Nat.eqb currentPage 1)
  | Next => negb (Nat.eqb currentPage totalPages)
  | Goto p => existsb (Nat.eqb p) (pageButtons totalPages)
  end.

(** [setCurrentPage] of each button. *)
Definition page_step (totalPages currentPage : nat) (e : page_event) : nat :=
  match e with
  | Prev => Nat.max (currentPage - 1) 1
  | Next => Nat.min (currentPage + 1) totalPages
  | Goto p => p
  end.

(** A sequence of clicks; a disabled button does nothing. *)
Fixpoint run_pages (totalPages currentPage : nat) (es : list page_event) : nat :=
  match es with
  | [] => currentPage
  | e :: t =>
      let p := if page_enabled totalPages currentPage e
               then page_step totalPages currentPage e else currentPage in
      run_pages totalPages p t
  end.

End DataTablePaging.

(* ------------------------------------------------------------------ *)
(** ** [Dashboard]: filters *)

Module Dashboard.
Import DataTable.

Fixpoint prefixb (p s : string) : bool :=
  match p, s with
  | EmptyString, _ => true
  | String a p', String b s' => (Ascii.eqb a b && prefixb p' s')%bool
  | String _ _, EmptyString => false
  end.

(** [s.includes(sub)] *)
Fixpoint includes (s sub : string) : bool :=
  (prefixb sub s || match s with EmptyString => false | String _ t => includes t sub end)%bool.

(** [applyFilters(search, region, status)], returning the array passed to
    [setFilteredData]. *)
Definition applyFilters (data : list FreedomData) (search region status : string)
  : list FreedomData :=
  let filtered := data in
  let filtered :=
    if truthy (JStr search)
    then filter (fun item => includes (toLowerCase (country item)) (toLowerCase search)) filtered
    else filtered in
  let filtered :=
    if negb (String.eqb region "all")
    then filter (fun item => String.eqb (Agg.region item) region) filtered
    else filtered in
  let filtered :=
    if negb (String.eqb status "all")
    then filter (fun item => String.eqb (Agg.status item) status) filtered
    else filtered in
  filtered.

(** The state of the [Dashboard] component that the filters touch. *)
Record DashState := mkDashState {
  data : list FreedomData;
  filteredData : list FreedomData;
  searchTerm : string;
  regionFilter : string;
  statusFilter : string }.

Definition initial : DashState := mkDashState [] [] "" "all" "all".

Inductive event :=
| DataLoad (newData : list FreedomData)
| SearchInput (term : string)
| RegionSelect (r : string)
| StatusSelect (s : string).

(** [handleDataLoad], [handleSearch], [handleRegionFilter], [handleStatusFilter]. *)
Definition step (s : DashState) (e : event) : DashState :=
  match e with
  | DataLoad newData =>
      mkDashState newData newData (searchTerm s) (regionFilter s) (statusFilter s)
  | SearchInput term =>
      mkDashState (data s) (applyFilters (data s) term (regionFilter s) (statusFilter s))
        term (regionFilter s) (statusFilter s)
  | RegionSelect r =>
      mkDashState (data s) (applyFilters (data s) (searchTerm s) r (statusFilter s))
        (searchTerm s) r (statusFilter s)
  | StatusSelect st =>
      mkDashState (data s) (applyFilters (data s) (searchTerm s) (regionFilter s) st)
        (searchTerm s) (regionFilter s) st
  end.

Definition run (s : DashState) (es : list event) : DashState := fold_left step es s.

(** [[...new Set(xs)]]: first occurrences, in order. *)
Fixpoint set_from (seen : list string) (xs : list string) : list string :=
  match xs with
  | [] => []
  | x :: t =>
      if existsb (String.eqb x) seen then set_from seen t else x :: set_from (x :: seen) t
  end.

(** [uniqueRegions], the options of the region menu. *)
Definition uniqueRegions (data : list FreedomData) : list string :=
  set_from [] (map Agg.region data).

End Dashboard.

(* ================================================================== *)
(** * Properties *)

(* ------------------------------------------------------------------ *)
(** ** Rounding to doubles *)

Module DoubleFacts.
Local Open Scope Q_scope.

Lemma pow2_Qpower (k : Z) : pow2 k == (2 # 1) ^ k.
Proof.
  unfold pow2. destruct (Z.leb_spec 0 k) as [H|H].
  - rewrite Zpower_Qpower by exact H. reflexivity.
  - replace k with (- (- k))%Z at 2 by lia.
    rewrite Qpower_opp. change (2 # 1) with (inject_Z 2).
    rewrite <- Zpower_Qpower by lia.
    assert (P : (0 < 2 ^ (- k))%Z) by (apply Z.pow_pos_nonneg; lia).
    destruct (2 ^ (- k))%Z eqn:E; try lia. reflexivity.
Qed.

Lemma pow2_pos (k : Z) : 0 < pow2 k.
Proof. rewrite pow2_Qpower. apply Qpower_0_lt. reflexivity. Qed.

Lemma pow2_add (a b : Z) : pow2 (a + b) == pow2 a * pow2 b.
Proof. rewrite !pow2_Qpower. apply Qpower_plus. discriminate. Qed.

Lemma round_half_even_close (q : Q) : Qabs (inject_Z (round_half_even q) - q) <= 1 # 2.
Proof.
  unfold round_half_even.
  pose proof (Qfloor_le q) as H1. pose proof (Qlt_floor q) as H2.
  rewrite inject_Z_plus in H2. change (inject_Z 1) with 1 in H2.
  apply Qabs_Qle_condition.
  destruct (Qcompare (q - inject_Z (Qfloor q)) (1 # 2)) eqn:C.
  - apply Qeq_alt in C.
    destruct (Z.even (Qfloor q)); [split; lra|].
    rewrite inject_Z_plus. change (inject_Z 1) with 1. split; lra.
  - apply Qlt_alt in C. split; lra.
  - apply Qgt_alt in C. rewrite inject_Z_plus. change (inject_Z 1) with 1. split; lra.
Qed.

Lemma div_le_div (x y u v : Q) : 0 < y -> 0 < v -> x * v <= u * y -> x / y <= u / v.
Proof.
  intros Hy Hv H. apply Qle_shift_div_l; [exact Hv|].
  assert (E : x / y * v == (x * v) / y) by (unfold Qdiv; ring).
  rewrite E. apply Qle_shift_div_r; [exact Hy|]. exact H.
Qed.

(** The binade of a positive rational: [2^e <= a / b] for the exponent
    [e] computed by [to_double]. *)
Lemma binade_low (a b : Z) : (0 < a)%Z -> (0 < b)%Z ->
  pow2 (Z.log2 a - Z.log2 b - (if a * 2 ^ Z.log2 b <? b * 2 ^ Z.log2 a then 1 else 0))%Z
  <= inject_Z a / inject_Z b.
Proof.
  intros Ha Hb.
  set (la := Z.log2 a). set (lb := Z.log2 b).
  destruct (Z.log2_spec a Ha) as [A1 A2]. destruct (Z.log2_spec b Hb) as [B1 B2].
  fold la in A1, A2. fold lb in B1, B2.
  assert (Hla : (0 <= la)%Z) by apply Z.log2_nonneg.
  assert (Hlb : (0 <= lb)%Z) by apply Z.log2_nonneg.
  assert (Pla : 0 < inject_Z (2 ^ la)) by (unfold Qlt; simpl; pose proof (Z.pow_pos_nonneg 2 la); lia).
  assert (Plb : 0 < inject_Z (2 ^ lb)) by (unfold Qlt; simpl; pose proof (Z.pow_pos_nonneg 2 lb); lia).
  assert (Pb : 0 < inject_Z b) by (unfold Qlt; simpl; lia).
  destruct (Z.ltb_spec (a * 2 ^ lb) (b * 2 ^ la)) as [C|C].
  - replace (la - lb - 1)%Z with (la + - (Z.succ lb))%Z by lia.
    rewrite pow2_add.
    assert (E1 : pow2 la == inject_Z (2 ^ la)) by (unfold pow2; destruct (Z.leb_spec 0 la); [reflexivity|lia]).
    assert (E2 : pow2 (- Z.succ lb) == / inject_Z (2 ^ Z.succ lb)).
    { rewrite !pow2_Qpower, Qpower_opp, Zpower_Qpower by lia. reflexivity. }
    rewrite E1, E2. change (inject_Z (2 ^ la) * / inject_Z (2 ^ Z.succ lb))
      with (inject_Z (2 ^ la) / inject_Z (2 ^ Z.succ lb)).
    apply div_le_div; [unfold Qlt; simpl; pose proof (Z.pow_pos_nonneg 2 (Z.succ lb)); lia|exact Pb|].
    rewrite <- !inject_Z_mult, <- Zle_Qle.
    apply Z.le_trans with (a * b)%Z; [apply Z.mul_le_mono_nonneg_r; lia|].
    apply Z.mul_le_mono_nonneg_l; lia.
  - replace (la - lb - 0)%Z with (la + - lb)%Z by lia.
    rewrite pow2_add.
    assert (E1 : pow2 la == inject_Z (2 ^ la)) by (unfold pow2; destruct (Z.leb_spec 0 la); [reflexivity|lia]).
    assert (E2 : pow2 (- lb) == / inject_Z (2 ^ lb)).
    { rewrite !pow2_Qpower, Qpower_opp, Zpower_Qpower by lia. reflexivity. }
    rewrite E1, E2. change (inject_Z (2 ^ la) * / inject_Z (2 ^ lb))
      with (inject_Z (2 ^ la) / inject_Z (2 ^ lb)).
    apply div_le_div; [exact Plb|exact Pb|].
    rewrite <- !inject_Z_mult, <- Zle_Qle. lia.
Qed.

(** Rounding error of [to_double]: relative [2^-53], or absolute [2^-1075]
    in the subnormal range. *)
Lemma to_double_error (q : Q) :
  Qabs (to_double q - q) <= Qabs q * pow2 (-53) + pow2 (-1075).
Proof.
  pose proof (pow2_pos (-1075)) as P1075.
  unfold to_double. cbv zeta.
  destruct q as [n d]. cbn [Qnum Qden].
  destruct (Z.eqb_spec (Z.abs n) 0) as [H0|H0].
  - assert (n = 0%Z) by lia. subst n.
    assert (E : 0 - (0 # d) == 0) by (unfold Qeq; simpl; lia). rewrite E. simpl.
    assert (E' : Qabs (0 # d) == 0) by (unfold Qeq; simpl; lia). rewrite E'.
    lra.
  - set (a := Z.abs n). set (b := Zpos d).
    set (e := (Z.log2 a - Z.log2 b - (if a * 2 ^ Z.log2 b <? b * 2 ^ Z.log2 a then 1 else 0))%Z).
    set (k := Z.max (e - 52) (-1074)).
    set (x := inject_Z a / inject_Z b).
    set (m := round_half_even (x / pow2 k)).
    assert (Ha : (0 < a)%Z) by (unfold a; lia).
    assert (Pk := pow2_pos k).
    assert (Hx : pow2 e <= x) by (apply binade_low; [exact Ha|reflexivity]).
    assert (Hq : n # d == inject_Z (Z.sgn n) * x).
    { unfold x, a, b, Qeq, Qdiv, Qmult, Qinv. simpl.
      destruct n; simpl; lia. }
    assert (Habs : Qabs (n # d) == x).
    { unfold x, a, b. unfold Qeq, Qdiv, Qmult, Qinv, Qabs. simpl.
      destruct n; simpl; lia. }
    rewrite Habs, Hq.
    assert (Hm := round_half_even_close (x / pow2 k)). fold m in Hm.
    assert (E : inject_Z (Z.sgn n * m) * pow2 k - inject_Z (Z.sgn n) * x
                == inject_Z (Z.sgn n) * (pow2 k * (inject_Z m - x / pow2 k))).
    { rewrite inject_Z_mult. field. apply Qnot_eq_sym, Qlt_not_eq, Pk. }
    rewrite E, Qabs_Qmult, Qabs_Qmult.
    assert (S : Qabs (inject_Z (Z.sgn n)) == 1).
    { destruct n; [lia| |]; reflexivity. }
    rewrite S, Qmult_1_l.
    rewrite (Qabs_pos (pow2 k)) by (apply Qlt_le_weak, Pk).
    apply Qle_trans with (pow2 k * (1 # 2)).
    { apply Qmult_le_l; [exact Pk|exact Hm]. }
    unfold k. destruct (Z.max_spec (e - 52) (-1074)) as [[_ M]|[_ M]]; rewrite M.
    + replace (-1074)%Z with (-1075 + 1)%Z by lia. rewrite pow2_add.
      change (pow2 1) with (2 # 1).
      assert (0 <= x * pow2 (-53)).
      { apply Qmult_le_0_compat; [apply Qle_trans with (pow2 e); [apply Qlt_le_weak, pow2_pos|exact Hx]|apply Qlt_le_weak, pow2_pos]. }
      lra.
    + replace (e - 52)%Z with (e + -53 + 1)%Z by lia. rewrite !pow2_add.
      change (pow2 1) with (2 # 1).
      assert (pow2 e * pow2 (-53) <= x * pow2 (-53)).
      { apply Qmult_le_r; [apply pow2_pos|exact Hx]. }
      lra.
Qed.

Lemma round_int_small (z : Z) : (Z.abs z <= 2 ^ 53)%Z -> round_int z = z.
Proof. intros H. unfold round_int. cbv zeta. apply Z.leb_le in H. rewrite H. reflexivity. Qed.

Lemma fadd_exact (a b : Z) : (Z.abs (a + b) <= 2 ^ 53)%Z -> fadd a b = (a + b)%Z.
Proof. apply round_int_small. Qed.

(** A sum of integers is exact while the running total and the remaining
    terms stay within 2^53. *)
Lemma fold_fadd_exact {A} (f : A -> Z) (B : Z) (l : list A) (a : Z) :
  (forall x, In x l -> Z.abs (f x) <= B)%Z ->
  (Z.abs a + Z.of_nat (length l) * B <= 2 ^ 53)%Z ->
  fold_left (fun s x => fadd s (f x)) l a = (a + fold_right (fun x s => f x + s) 0 l)%Z.
Proof.
  revert a. induction l as [|x t IH]; intros a Hf Ha; cbn [fold_left fold_right length] in *; [lia|].
  assert (Hx : (Z.abs (f x) <= B)%Z) by (apply Hf; left; reflexivity).
  rewrite Nat2Z.inj_succ in Ha.
  assert (Ht : (0 <= Z.of_nat (length t) * B)%Z) by (apply Z.mul_nonneg_nonneg; lia).
  rewrite fadd_exact by lia.
  rewrite IH; [lia|intros y Hy; apply Hf; right; exact Hy|]. lia.
Qed.

End DoubleFacts.

(* ------------------------------------------------------------------ *)
(** ** Ingestion *)

Module FileUploadFacts.
Import FileUpload.
Local Open Scope Z_scope.

Lemma get_set (o : object) (k k' : string) (v : jsval) :
  get (set o k v) k' = if String.eqb k k' then v else get o k'.
Proof.
  induction o as [|[k0 v0] t IH]; simpl.
  - reflexivity.
  - destruct (String.eqb k0 k) eqn:E0.
    + apply String.eqb_eq in E0; subst k0. simpl.
      destruct (String.eqb k k'); reflexivity.
    + simpl. rewrite IH. destruct (String.eqb k k') eqn:E1; [|reflexivity].
      apply String.eqb_eq in E1; subst k'. rewrite E0. reflexivity.
Qed.

(** A property that the row does not carry keeps its computed value. *)
Lemma get_spread_notin (base row : object) (k : string) :
  ~ In k (map fst row) -> get (spread base row) k = get base k.
Proof.
  unfold spread. revert base.
  induction row as [|[k0 v0] t IH]; intros base Hn; simpl in *.
  - reflexivity.
  - rewrite IH by tauto. rewrite get_set.
    destruct (String.eqb k0 k) eqn:E; [|reflexivity].
    apply String.eqb_eq in E. tauto.
Qed.

Lemma mapi_from_length (cy : Z) (rows : list RawRow) (i : nat) :
  length (mapi_from cy i rows) = length rows.
Proof. revert i; induction rows; simpl; auto. Qed.

Lemma mapi_from_nth (cy : Z) (rows : list RawRow) (i n : nat) :
  (n < length rows)%nat ->
  nth_error (mapi_from cy i rows) n = option_map (transformRow cy (i + n)) (nth_error rows n).
Proof.
  revert i n; induction rows as [|r t IH]; intros i n Hn; simpl in *; [lia|].
  destruct n as [|n]; simpl.
  - rewrite Nat.add_0_r. reflexivity.
  - rewrite IH by lia. replace (S i + n)%nat with (i + S n)%nat by lia. reflexivity.
Qed.

(** One record per row, in row order: record [n] is the transformation of
    row [n] with index [n]. *)
Lemma transformedData_rows (cy : Z) (rows : list RawRow) :
  length (transformedData cy rows) = length rows /\
  forall n, (n < length rows)%nat ->
    nth_error (transformedData cy rows) n = option_map (transformRow cy n) (nth_error rows n).
Proof.
  split.
  - apply mapi_from_length.
  - intros n Hn. unfold transformedData. rewrite mapi_from_nth by exact Hn. reflexivity.
Qed.

(** Away from name clashes with the output fields, the derived score is the
    sum of the two parsed ratings. *)
Lemma transformRow_totalScore_no_clash (cy : Z) (i : nat) (row : RawRow) :
  ~ In "politicalRights" (map fst row) ->
  ~ In "civilLiberties" (map fst row) ->
  ~ In "totalScore" (map fst row) ->
  exists p c,
    get (transformRow cy i row) "politicalRights" = JNum p /\
    get (transformRow cy i row) "civilLiberties" = JNum c /\
    get (transformRow cy i row) "totalScore" = JNum (fadd p c).
Proof.
  intros H1 H2 H3. unfold transformRow.
  rewrite !get_spread_notin by assumption. simpl.
  eexists; eexists; repeat split.
Qed.

(** ** C1 (code_bug): the passthrough spread [...row] comes after the
    derived fields, so a source column named [totalScore] replaces the
    recomputed score: here the record carries [totalScore = 99] with both
    ratings [0]. *)
Theorem transformRow_totalScore_overwritten :
  get (transformRow 2026 0 [("totalScore", JNum 99)]) "totalScore" = JNum 99 /\
  get (transformRow 2026 0 [("totalScore", JNum 99)]) "politicalRights" = JNum 0 /\
  get (transformRow 2026 0 [("totalScore", JNum 99)]) "civilLiberties" = JNum 0.
Proof. vm_compute. repeat split. Qed.

(** ** C2 (counterexample): the placeholder of a row without a country is
    ["Pays 3"], not ["Country 3"]. *)
Lemma transformRow_placeholder_not_Country :
  get (transformRow 2026 3 []) "country" <> JStr ("Country " ++ nat_to_string 3).
Proof. vm_compute. discriminate. Qed.

(** ** C2 (amended): when none of [Pays], [Country], [country] holds a truthy
    value and the row has no [country] column, the record's country is the
    string ["Pays {index}"]. *)
Theorem transformRow_country_placeholder (cy : Z) (index : nat) (row : RawRow) :
  truthy (get row "Pays") = false ->
  truthy (get row "Country") = false ->
  truthy (get row "country") = false ->
  ~ In "country" (map fst row) ->
  get (transformRow cy index row) "country" = JStr ("Pays " ++ nat_to_string index).
Proof.
  intros H1 H2 H3 H4. unfold transformRow.
  rewrite get_spread_notin by exact H4. simpl.
  unfold js_or. rewrite H1, H2, H3. reflexivity.
Qed.

Lemma transformRow_country_placeholder_witness :
  get (transformRow 2026 7 [("Region", JStr "Europe"); ("Pays", JStr "")]) "country"
    = JStr "Pays 7".
Proof.
  apply (transformRow_country_placeholder 2026 7 [("Region", JStr "Europe"); ("Pays", JStr "")]);
    simpl; try reflexivity.
  intros [H|[H|H]]; [discriminate H|discriminate H|exact H].
Defined.

(** ** C6 (code_bug): a non-numeric value in the [politicalRights] column,
    one of the accepted synonyms, is parsed to [NaN] and replaced by [0], and
    then the spread copies the raw string over it: the record's
    [politicalRights] is ["n/a"], not the fallback [0].  Both rows still
    produce a record. *)
Theorem transformedData_politicalRights_not_fallback :
  length (transformedData 2026 [[("politicalRights", JStr "n/a")]; []]) = 2%nat /\
  option_map (fun o => get o "politicalRights")
    (nth_error (transformedData 2026 [[("politicalRights", JStr "n/a")]; []]) 0)
    = Some (JStr "n/a").
Proof. vm_compute. split; reflexivity. Qed.

Definition utopia_row : RawRow :=
  [("Pays", JStr "Utopia"); ("Année", JStr "2020");
   ("Droits politiques", JStr "7"); ("Libertés civiles", JStr "6")].

(** ** C9: the single row [{Pays: "Utopia", Année: "2020", "Droits
    politiques": "7", "Libertés civiles": "6"}] yields one record with
    country "Utopia", year 2020, ratings 7 and 6, total 13 and status
    "Non spécifié". *)
Theorem transformedData_utopia (cy : Z) :
  exists r, transformedData cy [utopia_row] = [r] /\
    get r "country" = JStr "Utopia" /\ get r "year" = JNum 2020 /\
    get r "politicalRights" = JNum 7 /\ get r "civilLiberties" = JNum 6 /\
    get r "totalScore" = JNum 13 /\ get r "status" = JStr "Non spécifié".
Proof.
  eexists. split; [reflexivity|].
  vm_compute. repeat split.
Qed.

End FileUploadFacts.

(* ------------------------------------------------------------------ *)
(** ** Sorting and grouping *)

Module AggFacts.
Local Open Scope Z_scope.
Local Open Scope list_scope.

Section Sorting.
Context {A : Type}.

Lemma insert_perm (cmp : A -> A -> Z) (x : A) (l : list A) :
  Permutation (x :: l) (insert cmp x l).
Proof.
  induction l as [|y t IH]; simpl; [reflexivity|].
  destruct (cmp y x <=? 0); [|reflexivity].
  rewrite perm_swap. constructor. exact IH.
Qed.

Lemma sort_perm (cmp : A -> A -> Z) (l : list A) : Permutation l (sort cmp l).
Proof.
  unfold sort.
  assert (G : forall acc, Permutation (acc ++ l) (fold_left (fun acc x => insert cmp x acc) l acc)).
  { induction l as [|x t IH]; intros acc; simpl.
    - rewrite app_nil_r. reflexivity.
    - rewrite <- IH. rewrite <- Permutation_middle.
      change (x :: acc ++ t) with ((x :: acc) ++ t).
      apply Permutation_app_tail. apply insert_perm. }
  exact (G []).
Qed.

Variable key : A -> Z.

Let R (a b : A) : Prop := key a <= key b.

Lemma insert_hdrel (x y : A) (l : list A) :
  HdRel R y l -> R y x -> HdRel R y (insert (fun a b => key a - key b) x l).
Proof.
  intros H Hyx. destruct l as [|z t]; simpl.
  - constructor. exact Hyx.
  - destruct (key z - key x <=? 0); constructor; [inversion H; assumption | exact Hyx].
Qed.

Lemma insert_sorted (x : A) (l : list A) :
  Sorted R l -> Sorted R (insert (fun a b => key a - key b) x l).
Proof.
  induction l as [|y t IH]; intros Hs; simpl.
  - repeat constructor.
  - destruct (key y - key x <=? 0) eqn:E.
    + apply Sorted_inv in Hs as [Ht Hh]. constructor.
      * apply IH, Ht.
      * apply insert_hdrel; [exact Hh|]. unfold R. lia.
    + constructor; [exact Hs|]. constructor. unfold R. lia.
Qed.

Lemma sort_sorted (l : list A) : Sorted R (sort (fun a b => key a - key b) l).
Proof.
  unfold sort.
  assert (G : forall acc, Sorted R acc ->
            Sorted R (fold_left (fun acc x => insert (fun a b => key a - key b) x acc) l acc)).
  { induction l as [|x t IH]; intros acc Hacc; simpl; [exact Hacc|].
    apply IH, insert_sorted, Hacc. }
  apply G. constructor.
Qed.

End Sorting.

Section Group.
Context {A K V : Type}.
Variable eqb : K -> K -> bool.
Hypothesis eqb_spec : forall a b, eqb a b = true <-> a = b.
Variable key : A -> K.
Variable init : K -> V.
Variable step : V -> A -> V.

Definition current (acc : list (K * V)) (k : K) : V :=
  match lookup eqb acc k with Some e => e | None => init k end.

(** The shape shared by the [reduce]s that group records by a key:
    [if (!acc[k]) acc[k] = init; acc[k] = step(acc[k], item)]. *)
Definition group_step (acc : list (K * V)) (item : A) : list (K * V) :=
  assign eqb acc (key item) (step (current acc (key item)) item).

Definition group (l : list A) : list (K * V) := fold_left group_step l [].

Lemma eqb_refl (k : K) : eqb k k = true.
Proof. apply eqb_spec. reflexivity. Qed.

Lemma eqb_false (a b : K) : a <> b -> eqb a b = false.
Proof. intros H. destruct (eqb a b) eqn:E; [apply eqb_spec in E; contradiction|reflexivity]. Qed.

Lemma lookup_assign (acc : list (K * V)) (k k' : K) (v : V) :
  lookup eqb (assign eqb acc k v) k' = if eqb k k' then Some v else lookup eqb acc k'.
Proof.
  induction acc as [|[k0 v0] t IH]; simpl.
  - reflexivity.
  - destruct (eqb k0 k) eqn:E0.
    + apply eqb_spec in E0; subst k0. simpl. destruct (eqb k k'); reflexivity.
    + simpl. rewrite IH. destruct (eqb k k') eqn:E1; [|reflexivity].
      apply eqb_spec in E1; subst k'. rewrite E0. reflexivity.
Qed.

Lemma filter_none_existsb (p : A -> bool) (l : list A) :
  existsb p l = false -> filter p l = [].
Proof.
  induction l as [|x t IH]; simpl; [reflexivity|].
  destruct (p x); simpl; [discriminate|exact IH].
Qed.

Lemma lookup_fold_group (l : list A) (acc : list (K * V)) (k : K) :
  lookup eqb (fold_left group_step l acc) k =
  if existsb (fun a => eqb (key a) k) l
  then Some (fold_left step (filter (fun a => eqb (key a) k) l) (current acc k))
  else lookup eqb acc k.
Proof.
  revert acc. induction l as [|x t IH]; intros acc; simpl; [reflexivity|].
  rewrite IH. unfold group_step, current. rewrite !lookup_assign.
  destruct (eqb (key x) k) eqn:E; simpl.
  - apply eqb_spec in E. subst k.
    destruct (existsb (fun a => eqb (key a) (key x)) t) eqn:Ex; [reflexivity|].
    rewrite filter_none_existsb by exact Ex. reflexivity.
  - reflexivity.
Qed.

Lemma lookup_group (l : list A) (k : K) :
  lookup eqb (group l) k =
  if existsb (fun a => eqb (key a) k) l
  then Some (fold_left step (filter (fun a => eqb (key a) k) l) (init k))
  else None.
Proof. unfold group. rewrite lookup_fold_group. reflexivity. Qed.

Lemma in_keys_assign (acc : list (K * V)) (k a : K) (v : V) :
  In a (map fst (assign eqb acc k v)) <-> In a (map fst acc) \/ a = k.
Proof.
  induction acc as [|[k0 v0] t IH]; simpl.
  - split; [intros [H|[]]; right; auto|intros [[]|H]; left; auto].
  - destruct (eqb k0 k) eqn:E0; simpl.
    + apply eqb_spec in E0; subst k0. split; intros H; [tauto|].
      destruct H as [[H|H]|H]; auto.
    + rewrite IH. tauto.
Qed.

Lemma nodup_assign (acc : list (K * V)) (k : K) (v : V) :
  NoDup (map fst acc) -> NoDup (map fst (assign eqb acc k v)).
Proof.
  induction acc as [|[k0 v0] t IH]; simpl; intros Hn.
  - repeat constructor. simpl. tauto.
  - inversion Hn as [|? ? Hnin Ht]; subst.
    destruct (eqb k0 k) eqn:E0; simpl.
    + apply eqb_spec in E0; subst k0. constructor; assumption.
    + constructor; [|apply IH, Ht].
      rewrite in_keys_assign. intros [H|H]; [contradiction|].
      subst k0. rewrite eqb_refl in E0. discriminate.
Qed.

Lemma nodup_group (l : list A) : NoDup (map fst (group l)).
Proof.
  unfold group.
  assert (G : forall acc, NoDup (map fst acc) -> NoDup (map fst (fold_left group_step l acc))).
  { induction l as [|x t IH]; intros acc H; simpl; [exact H|].
    apply IH. unfold group_step. apply nodup_assign, H. }
  apply G. constructor.
Qed.

Lemma lookup_in (acc : list (K * V)) (k : K) (v : V) :
  NoDup (map fst acc) -> In (k, v) acc -> lookup eqb acc k = Some v.
Proof.
  induction acc as [|[k0 v0] t IH]; simpl; intros Hn Hin; [contradiction|].
  inversion Hn as [|? ? Hnin Ht]; subst.
  destruct Hin as [E|Hin].
  - injection E as -> ->. rewrite eqb_refl. reflexivity.
  - rewrite eqb_false; [apply IH; assumption|].
    intros ->. apply Hnin. apply (in_map fst) in Hin. exact Hin.
Qed.

Lemma lookup_some_in (acc : list (K * V)) (k : K) (v : V) :
  lookup eqb acc k = Some v -> In k (map fst acc).
Proof.
  induction acc as [|[k0 v0] t IH]; simpl; intros H; [discriminate|].
  destruct (eqb k0 k) eqn:E; [left; apply eqb_spec, E|right; apply IH, H].
Qed.

Lemma in_keys_lookup (acc : list (K * V)) (k : K) :
  In k (map fst acc) -> exists v, lookup eqb acc k = Some v.
Proof.
  induction acc as [|[k0 v0] t IH]; simpl; intros H; [contradiction|].
  destruct (eqb k0 k) eqn:E; [eauto|].
  destruct H as [->|H]; [rewrite eqb_refl in E; discriminate|apply IH, H].
Qed.

Lemma in_keys_group (l : list A) (k : K) :
  In k (map fst (group l)) <-> In k (map key l).
Proof.
  split.
  - intros H. apply in_keys_lookup in H as [v Hv].
    rewrite lookup_group in Hv.
    destruct (existsb (fun a => eqb (key a) k) l) eqn:E; [|discriminate].
    apply existsb_exists in E as [a [Ha Hk]]. apply eqb_spec in Hk.
    subst k. apply in_map, Ha.
  - intros H. apply in_map_iff in H as [a [<- Ha]].
    assert (E : existsb (fun b => eqb (key b) (key a)) l = true).
    { apply existsb_exists. exists a. split; [exact Ha|apply eqb_refl]. }
    destruct (lookup eqb (group l) (key a)) eqn:L.
    + eapply lookup_some_in, L.
    + rewrite lookup_group, E in L. discriminate.
Qed.

End Group.

End AggFacts.

(* ------------------------------------------------------------------ *)
(** ** Aggregations on concrete collections *)

Module AggExamples.
Import StatsCards DataVisualization.
Local Open Scope Z_scope.

(** ** C7: on the empty collection the headline stats are [null] and the
    status, region and yearly series are empty, all without a division by
    zero. *)
Theorem aggregations_empty :
  stats [] = Ok None /\ statusDistribution [] = Ok [] /\
  regionDistribution [] = Ok [] /\ yearlyTrends [] = Ok [].
Proof. repeat split. Qed.

Definition trend_data : list FreedomData :=
  [mkFreedomData "A" "Europe" 999 Libre 5 5 10;
   mkFreedomData "B" "Europe" 2020 PasLibre 1 1 2].

(** ** C3 (code_bug): [StatsCards] sorts the years with [sort()] and no
    comparator, i.e. by their strings, so ["2020" < "999"] makes 2020 the
    "first" year.  The latest year 2020 averages 2 and the earliest year
    999 averages 10, yet the trend comes out "improving". *)
Theorem stats_trend_string_sorted_years :
  year_entry (yearlyData trend_data) 999 = mkYearData 10 1 5 5 /\
  year_entry (yearlyData trend_data) 2020 = mkYearData 2 1 1 1 /\
  exists s, stats trend_data = Ok (Some s) /\ trend s = "improving".
Proof.
  split; [reflexivity|]. split; [reflexivity|].
  eexists. split; [reflexivity|]. reflexivity.
Qed.



Definition unspecified_data : list FreedomData :=
  [mkFreedomData "A" "Europe" 2020 "Non spécifié" 3 4 7].

(** ** C5 (counterexample): a record whose status is "Non spécifié" is
    counted in [pasLibre], the third and last status counter of its year,
    although no record of that year is "Pas libre". *)
Lemma yearlyTrends_unspecified_in_pasLibre :
  exists p, yearlyTrends unspecified_data = Ok [p] /\
    pasLibre p = 1 /\ count (has_status PasLibre) unspecified_data = 0.
Proof. eexists. split; [reflexivity|]. split; reflexivity. Qed.



End AggExamples.

(* ------------------------------------------------------------------ *)
(** ** Table sorting *)

Module DataTableFacts.
Import DataTable.
Local Open Scope nat_scope.
Local Open Scope list_scope.

Lemma nth_error_heap_write_other (h : heap) (l l' : loc) (a : list FreedomData) :
  l' <> l -> nth_error (heap_write h l a) l' = nth_error h l'.
Proof.
  revert l l'; induction h as [|b t IH]; intros l l' Hne; simpl; [reflexivity|].
  destruct l as [|l], l' as [|l']; simpl; try reflexivity; [contradiction|].
  apply IH. congruence.
Qed.

Lemma nth_error_heap_write_same (h : heap) (l : loc) (a : list FreedomData) :
  (l < length h)%nat -> nth_error (heap_write h l a) l = Some a.
Proof.
  revert l; induction h as [|b t IH]; intros l Hl; simpl in *; [lia|].
  destruct l as [|l]; simpl; [reflexivity|]. apply IH. lia.
Qed.

Lemma heap_read_write_same (h : heap) (l : loc) (a : list FreedomData) :
  (l < length h)%nat -> heap_read (heap_write h l a) l = a.
Proof. intros Hl. unfold heap_read. rewrite nth_error_heap_write_same by exact Hl. reflexivity. Qed.

Lemma heap_read_app_last (h : heap) (a : list FreedomData) :
  heap_read (h ++ [a]) (length h) = a.
Proof.
  unfold heap_read. rewrite nth_error_app2 by lia. rewrite Nat.sub_diag. reflexivity.
Qed.

(** ** C10: sorting the table leaves every existing array, the input among
    them, as it was; the array shown is a permutation of the input; and
    with no sort column the input array itself is shown, untouched. *)
Theorem sortedData_frame (h : heap) (data : loc) (sortColumn : option column)
    (sortDirection : direction) (h' : heap) (out : loc) :
  (data < length h)%nat ->
  sortedData h data sortColumn sortDirection = (h', out) ->
  (forall l, (l < length h)%nat -> nth_error h' l = nth_error h l) /\
  Permutation (heap_read h data) (heap_read h' out) /\
  (sortColumn = None -> h' = h /\ out = data).
Proof.
  intros Hd Hs. destruct sortColumn as [c|]; simpl in Hs.
  - injection Hs as <- <-. unfold sort_in_place.
    assert (Hlen : (length h < length (h ++ [heap_read h data]))%nat).
    { rewrite length_app. simpl. lia. }
    split; [|split].
    + intros l Hl. rewrite nth_error_heap_write_other by lia.
      apply nth_error_app1. exact Hl.
    + rewrite heap_read_write_same by exact Hlen.
      rewrite heap_read_app_last. apply AggFacts.sort_perm.
    + discriminate.
  - injection Hs as <- <-. split; [|split]; [reflexivity|reflexivity|].
    intros _. split; reflexivity.
Qed.

Definition table_rows : list FreedomData :=
  [mkFreedomData "Chili" "Amérique" 2020 Libre 1 1 2;
   mkFreedomData "Bénin" "Afrique" 2020 PartiellementLibre 3 3 6].

Lemma sortedData_frame_witness :
  (0 < length [table_rows])%nat /\
  sortedData [table_rows] 0 (Some Country) Asc
    = ([table_rows; rev table_rows], 1%nat) /\
  ((forall l, (l < length [table_rows])%nat ->
      nth_error [table_rows; rev table_rows] l = nth_error [table_rows] l) /\
   Permutation (heap_read [table_rows] 0) (heap_read [table_rows; rev table_rows] 1) /\
   (Some Country = None -> [table_rows; rev table_rows] = [table_rows] /\ 1%nat = 0%nat)).
Proof.
  split; [simpl; lia|]. split; [reflexivity|].
  apply (sortedData_frame [table_rows] 0 (Some Country) Asc); [simpl; lia|reflexivity].
Defined.

End DataTableFacts.

(* ------------------------------------------------------------------ *)
(** ** Headline statistics *)

Module StatsFacts.
Import StatsCards AggFacts.
Local Open Scope Z_scope.

Lemma jsdiv_ok (a : Q) (b : Z) : b <> 0 -> jsdiv a (inject_Z b) = Ok (a / inject_Z b)%Q.
Proof.
  intros H. unfold jsdiv. destruct (Qeq_bool (inject_Z b) 0) eqn:E; [|reflexivity].
  apply Qeq_bool_iff in E. unfold Qeq in E. simpl in E. lia.
Qed.

Lemma mapM_map {A B} (f : A -> res B) (g : A -> B) (l : list A) :
  (forall x, In x l -> f x = Ok (g x)) -> mapM f l = Ok (map g l).
Proof.
  induction l as [|x t IH]; intros H; simpl; [reflexivity|].
  rewrite (H x (or_introl eq_refl)). simpl.
  rewrite IH by (intros y Hy; apply H; right; exact Hy). reflexivity.
Qed.

(** [toFixed(1)] is within half a tenth of its argument. *)
Lemma toFixed1_close (x : Q) : (Qabs (inject_Z (toFixed1 x) - 10 * x) <= 1 # 2)%Q.
Proof.
  apply Qabs_Qle_condition. unfold toFixed1.
  destruct (Qltb x 0).
  - rewrite inject_Z_opp.
    pose proof (Qfloor_le (- (x * 10) + (1 # 2))) as H1.
    pose proof (Qlt_floor (- (x * 10) + (1 # 2))) as H2.
    rewrite inject_Z_plus in H2. change (inject_Z 1) with 1%Q in H2.
    split; lra.
  - pose proof (Qfloor_le (x * 10 + (1 # 2))) as H1.
    pose proof (Qlt_floor (x * 10 + (1 # 2))) as H2.
    rewrite inject_Z_plus in H2. change (inject_Z 1) with 1%Q in H2.
    split; lra.
Qed.

Lemma count_cons (p : FreedomData -> bool) (d : FreedomData) (t : list FreedomData) :
  count p (d :: t) = (if p d then 1 else 0) + count p t.
Proof. unfold count. simpl. destruct (p d); simpl length; lia. Qed.






Definition yd_step (e : YearData) (item : FreedomData) : YearData :=
  mkYearData (fadd (yd_totalScore e) (totalScore item)) (yd_count e + 1)
             (fadd (yd_political e) (politicalRights item)) (fadd (yd_civil e) (civilLiberties item)).

Lemma yearlyData_group (data : list FreedomData) :
  yearlyData data = group Z.eqb year (fun _ => yd_zero) yd_step data.
Proof. reflexivity. Qed.


Lemma existsb_filter_length {A} (p : A -> bool) (l : list A) :
  existsb p l = true -> (0 < length (filter p l))%nat.
Proof.
  induction l as [|x t IH]; simpl; [discriminate|].
  destruct (p x); simpl; [lia|exact IH].
Qed.





End StatsFacts.

(* ------------------------------------------------------------------ *)
(** ** Status distribution *)

Module DistributionFacts.
Import DataVisualization AggFacts StatsFacts DoubleFacts.
Local Open Scope Z_scope.




Definition bump (n : Z) (_ : FreedomData) : Z := n + 1.

(** The counts of the keys, as a dictionary with no prototype. *)
Definition counts (key : FreedomData -> string) (data : list FreedomData) : list (string * Z) :=
  group String.eqb key (fun _ => 0) bump data.

Definition numify (kv : string * Z) : string * jsval := (fst kv, JNum (snd kv)).

Lemma lookup_numify (acc : list (string * Z)) (k : string) :
  lookup String.eqb (map numify acc) k = option_map JNum (lookup String.eqb acc k).
Proof.
  induction acc as [|[k0 v0] t IH]; simpl; [reflexivity|].
  destruct (String.eqb k0 k); [reflexivity|exact IH].
Qed.

Lemma assign_numify (acc : list (string * Z)) (k : string) (v : Z) :
  assign String.eqb (map numify acc) k (JNum v) = map numify (assign String.eqb acc k v).
Proof.
  induction acc as [|[k0 v0] t IH]; simpl; [reflexivity|].
  destruct (String.eqb k0 k); [reflexivity|]. rewrite IH. reflexivity.
Qed.

Lemma inherited_proto (k : string) : inherited k = false -> String.eqb k "__proto__" = false.
Proof.
  intros H. destruct (String.eqb_spec k "__proto__") as [->|Hne]; [|reflexivity].
  discriminate H.
Qed.

Lemma js_or_num (n : Z) : js_or (JNum n) (JNum 0) = JNum n.
Proof. unfold js_or. simpl. destruct (Z.eqb_spec n 0) as [->|]; reflexivity. Qed.

(** When no key is the name of an inherited property, [tally] builds the
    counts of the keys. *)
Lemma tally_counts (key : FreedomData -> string) (data : list FreedomData) :
  (forall d, In d data -> inherited (key d) = false) ->
  tally key data = map numify (counts key data).
Proof.
  intros H. unfold tally, counts, group.
  change (@nil (string * jsval)) with (map numify []).
  generalize (@nil (string * Z)) as acc.
  induction data as [|x t IH]; intros acc; [reflexivity|].
  cbn [fold_left]. rewrite <- IH by (intros d Hd; apply H; right; exact Hd).
  f_equal. unfold dict_get, dict_set, group_step, current, bump.
  assert (Hx : inherited (key x) = false) by (apply H; left; reflexivity).
  rewrite lookup_numify, inherited_proto by exact Hx.
  destruct (lookup String.eqb acc (key x)) as [n|]; cbn [option_map].
  - rewrite js_or_num. apply assign_numify.
  - rewrite Hx. apply assign_numify.
Qed.

Lemma bump_fold (l : list FreedomData) (a : Z) :
  fold_left bump l a = a + Z.of_nat (length l).
Proof. revert a; induction l as [|x t IH]; intros a; simpl; [lia|]. rewrite IH. unfold bump. lia. Qed.



(** The count of a key is the number of records with that key. *)
Lemma counts_entry (key : FreedomData -> string) (data : list FreedomData) (k : string) (v : Z) :
  In (k, v) (counts key data) -> v = Z.of_nat (length (filter (fun d => String.eqb (key d) k) data)).
Proof.
  intros Hin.
  apply (lookup_in String.eqb String.eqb_eq) in Hin; [|apply nodup_group, String.eqb_eq].
  unfold counts in Hin. rewrite (lookup_group String.eqb String.eqb_eq) in Hin.
  destruct (existsb _ data); [|discriminate].
  injection Hin as <-. rewrite bump_fold. reflexivity.
Qed.

Lemma filter_partition {A} (p : A -> bool) (l : list A) :
  Permutation l (filter p l ++ filter (fun x => negb (p x)) l).
Proof.
  induction l as [|x t IH]; simpl; [constructor|].
  destruct (p x); simpl; [constructor; exact IH|]. apply Permutation_cons_app. exact IH.
Qed.

(** [Object.entries] lists the properties in another order, not another
    set. *)
Lemma object_entries_perm (o : object) : Permutation o (object_entries o).
Proof.
  unfold object_entries. eapply Permutation_trans; [apply (filter_partition is_index)|].
  apply Permutation_app_tail. apply sort_perm.
Qed.




Lemma pow2_m53 : pow2 (-53) = 1 # 9007199254740992.
Proof. reflexivity. Qed.

Lemma pow2_m1075 : (0 <= pow2 (-1075) <= 1 # 9007199254740992)%Q.
Proof. split; apply Qle_bool_iff; vm_compute; reflexivity. Qed.






End DistributionFacts.

(* ------------------------------------------------------------------ *)
(** ** Yearly series *)

Module YearlyFacts.
Import DataVisualization AggFacts StatsFacts DoubleFacts.
Local Open Scope Z_scope.

Definition year_init (y : Z) : YearAcc := mkYearAcc y 0 0 0 0 0 0.

Lemma yearData_group (data : list FreedomData) :
  yearData data = group Z.eqb year year_init add_item data.
Proof. reflexivity. Qed.

(** [reduce_sum] is the exact sum when the terms are at most [B] in
    absolute value and their number times [B] is at most 2^53. *)
Lemma reduce_sum_exact (f : FreedomData -> Z) (B : Z) (l : list FreedomData) :
  (forall d, In d l -> Z.abs (f d) <= B) -> Z.of_nat (length l) * B <= 2 ^ 53 ->
  reduce_sum f l = fold_right (fun d s => f d + s) 0 l.
Proof.
  intros Hf Hl. unfold reduce_sum. rewrite (fold_fadd_exact f B) by (first [exact Hf|simpl; lia]).
  reflexivity.
Qed.

Definition other_status (d : FreedomData) : bool :=
  negb (has_status Libre d || has_status PartiellementLibre d).

Lemma add_item_fold (l : list FreedomData) (e : YearAcc) :
  let e' := fold_left add_item l e in
  ya_year e' = ya_year e /\
  ya_totalCountries e' = ya_totalCountries e + Z.of_nat (length l) /\
  ya_avgPolitical e' = fold_left (fun s d => fadd s (politicalRights d)) l (ya_avgPolitical e) /\
  ya_avgCivil e' = fold_left (fun s d => fadd s (civilLiberties d)) l (ya_avgCivil e) /\
  ya_libre e' = ya_libre e + count (has_status Libre) l /\
  ya_partLibre e' = ya_partLibre e + count (has_status PartiellementLibre) l /\
  ya_pasLibre e' = ya_pasLibre e + count other_status l.
Proof.
  revert e. induction l as [|d t IH]; intros e; cbv zeta.
  - unfold count. simpl. repeat split; lia.
  - cbn [fold_left]. destruct (IH (add_item e d)) as (H1 & H2 & H3 & H4 & H5 & H6 & H7).
    rewrite H1, H2, H3, H4, H5, H6, H7.
    rewrite !count_cons. cbn [length]. rewrite Nat2Z.inj_succ.
    unfold add_item, other_status. cbn [ya_year ya_totalCountries ya_avgPolitical
      ya_avgCivil ya_libre ya_partLibre ya_pasLibre].
    change (String.eqb (status d) Libre) with (has_status Libre d).
    change (String.eqb (status d) PartiellementLibre) with (has_status PartiellementLibre d).
    destruct (has_status Libre d) eqn:E1.
    + assert (E2 : has_status PartiellementLibre d = false).
      { unfold has_status in *. apply String.eqb_eq in E1. rewrite E1. reflexivity. }
      rewrite E2. cbn [negb orb]. repeat split; lia.
    + destruct (has_status PartiellementLibre d); cbn [negb orb]; repeat split; lia.
Qed.

Definition finish_point (e : YearAcc) : YearPoint :=
  mkYearPoint (ya_year e) (ya_totalCountries e)
    (toFixed1 (to_double (inject_Z (ya_avgPolitical e) / inject_Z (ya_totalCountries e))))
    (toFixed1 (to_double (inject_Z (ya_avgCivil e) / inject_Z (ya_totalCountries e))))
    (ya_libre e) (ya_partLibre e) (ya_pasLibre e).

Lemma finish_ok (e : YearAcc) : ya_totalCountries e <> 0 -> finish e = Ok (finish_point e).
Proof. intros H. unfold finish. rewrite !jsdiv_ok by exact H. reflexivity. Qed.

(** The accumulator of year [k]: the fold of the records of that year. *)
Lemma yearData_entry (data : list FreedomData) (k : Z) (e : YearAcc) :
  In (k, e) (yearData data) ->
  e = fold_left add_item (filter (fun d => Z.eqb (year d) k) data) (year_init k) /\
  (0 < length (filter (fun d => Z.eqb (year d) k) data))%nat.
Proof.
  intros Hin. rewrite yearData_group in *.
  apply (lookup_in Z.eqb Z.eqb_eq) in Hin; [|apply nodup_group, Z.eqb_eq].
  rewrite (lookup_group Z.eqb Z.eqb_eq) in Hin.
  destruct (existsb (fun a => Z.eqb (year a) k) data) eqn:Ex; [|discriminate].
  injection Hin as <-. split; [reflexivity|]. apply existsb_filter_length, Ex.
Qed.

Lemma strongly_sorted_strict {A} (key : A -> Z) (l : list A) :
  StronglySorted (fun a b => key a <= key b) l -> NoDup (map key l) ->
  StronglySorted (fun a b => key a < key b) l.
Proof.
  induction l as [|x t IH]; intros Hs Hn; [constructor|].
  apply StronglySorted_inv in Hs as [Ht Hx]. inversion Hn as [|? ? Hnin Hnt]; subst.
  constructor; [apply IH; assumption|].
  rewrite Forall_forall in *. intros b Hb.
  specialize (Hx b Hb). assert (key x <> key b).
  { intros E. apply Hnin. rewrite E. apply in_map, Hb. }
  lia.
Qed.

(** ** C5 (amended): the yearly series has one point per distinct year,
    sorted by strictly increasing year; each point carries the number of
    records of its year, the averages of their political rights and civil
    liberties (the double quotient of the sum by the count, shown with one
    decimal), and three status counts: "Libre", "Partiellement libre", and
    every other status together ([pasLibre]). *)
Theorem yearlyTrends_spec (data : list FreedomData) :
  exists out, yearlyTrends data = Ok out /\
    StronglySorted (fun a b => yp_year a < yp_year b) out /\
    (forall y, In y (map yp_year out) <-> In y (map year data)) /\
    (forall p, In p out ->
       let rs := filter (fun d => Z.eqb (year d) (yp_year p)) data in
       totalCountries p = Z.of_nat (length rs) /\
       avgPolitical p
         = toFixed1 (to_double (inject_Z (reduce_sum politicalRights rs) / inject_Z (totalCountries p))) /\
       avgCivil p
         = toFixed1 (to_double (inject_Z (reduce_sum civilLiberties rs) / inject_Z (totalCountries p))) /\
       libre p = count (has_status Libre) rs /\
       partLibre p = count (has_status PartiellementLibre) rs /\
       pasLibre p = count other_status rs).
Proof.
  set (Y := yearData data).
  assert (Hnd : NoDup (map fst Y)).
  { unfold Y. rewrite yearData_group. apply nodup_group, Z.eqb_eq. }
  assert (Hyear : forall k e, In (k, e) Y -> ya_year e = k).
  { intros k e Hin. apply yearData_entry in Hin as [-> _].
    destruct (add_item_fold (filter (fun d => Z.eqb (year d) k) data) (year_init k)) as [H _].
    exact H. }
  assert (Hfin : mapM finish (map snd Y) = Ok (map finish_point (map snd Y))).
  { apply mapM_map. intros e He. apply in_map_iff in He as [[k e'] [Hs Hin]].
    simpl in Hs. subst e'. apply finish_ok.
    apply yearData_entry in Hin as [-> Hlen].
    destruct (add_item_fold (filter (fun d => Z.eqb (year d) k) data) (year_init k))
      as (_ & H & _). rewrite H. simpl. lia. }
  set (pts := map finish_point (map snd Y)).
  assert (Hkeys : map yp_year pts = map fst Y).
  { unfold pts. rewrite !map_map. apply map_ext_in. intros [k e] Hin. simpl.
    apply Hyear, Hin. }
  set (out := sort (fun a b => yp_year a - yp_year b) pts).
  assert (Hperm : Permutation pts out) by apply sort_perm.
  exists out. split; [|split; [|split]].
  - unfold yearlyTrends. fold Y. rewrite Hfin. reflexivity.
  - apply strongly_sorted_strict.
    + apply Sorted_StronglySorted; [intros a b c; lia|]. apply (sort_sorted yp_year).
    + apply (Permutation_NoDup (Permutation_map yp_year Hperm)). rewrite Hkeys. exact Hnd.
  - intros y. split; intros Hy.
    + apply (Permutation_in _ (Permutation_sym (Permutation_map yp_year Hperm))) in Hy.
      rewrite Hkeys in Hy. unfold Y in Hy. rewrite yearData_group in Hy.
      apply in_keys_group in Hy; [exact Hy|exact Z.eqb_eq].
    + apply (Permutation_in _ (Permutation_map yp_year Hperm)). rewrite Hkeys.
      unfold Y. rewrite yearData_group. apply in_keys_group; [exact Z.eqb_eq|exact Hy].
  - intros p Hp. apply (Permutation_in _ (Permutation_sym Hperm)) in Hp.
    unfold pts in Hp. rewrite map_map in Hp.
    apply in_map_iff in Hp as [[k e] [<- Hin]]. simpl.
    pose proof (Hyear k e Hin) as Hk.
    apply yearData_entry in Hin as [He _].
    destruct (add_item_fold (filter (fun d => Z.eqb (year d) k) data) (year_init k))
      as (H1 & H2 & H3 & H4 & H5 & H6 & H7).
    rewrite <- He in H1, H2, H3, H4, H5, H6, H7.
    unfold finish_point. cbn [yp_year totalCountries avgPolitical avgCivil libre partLibre pasLibre].
    rewrite Hk, H2, H3, H4, H5, H6, H7. simpl. repeat split.
Qed.

End YearlyFacts.

(* ------------------------------------------------------------------ *)
(** ** Pagination, sorting, filtering, menus, trend and upload details *)

Module PagingFacts.
Import DataTable DataTablePaging.
Local Open Scope nat_scope.
Local Open Scope list_scope.

Lemma firstn_plus {A} (n m : nat) (l : list A) :
  firstn (n + m) l = firstn n l ++ firstn m (skipn n l).
Proof.
  revert l; induction n as [|n IH]; intros l; simpl; [reflexivity|].
  destruct l as [|x t]; simpl; [destruct m; reflexivity|]. rewrite IH. reflexivity.
Qed.

Lemma paginatedData_window (l : list FreedomData) (p k : nat) :
  paginatedData l p k = firstn k (skipn ((p - 1) * k) l).
Proof. unfold paginatedData, slice. f_equal. lia. Qed.

Lemma pages_prefix (l : list FreedomData) (k n : nat) :
  concat (map (fun p => paginatedData l p k) (seq 1 n)) = firstn (n * k) l.
Proof.
  induction n as [|n IH]; [reflexivity|].
  rewrite seq_S, map_app, concat_app, IH. simpl concat. rewrite app_nil_r.
  rewrite paginatedData_window.
  transitivity (firstn (n * k + k) l); [rewrite firstn_plus; do 3 f_equal; lia|f_equal; lia].
Qed.

Lemma totalPages_bounds (n k : nat) :
  0 < k -> n <= totalPages n k * k /\ (0 < n -> (totalPages n k - 1) * k < n).
Proof.
  intros Hk. unfold totalPages.
  pose proof (Nat.div_mod_eq (n + k - 1) k) as E.
  pose proof (Nat.mod_upper_bound (n + k - 1) k ltac:(lia)) as M.
  set (q := (n + k - 1) / k) in *. set (r := (n + k - 1) mod k) in *.
  split; [nia|]. intros Hn. destruct q as [|q]; nia.
Qed.

Lemma skipn_all_length {A} (n : nat) (l : list A) : length l <= n -> skipn n l = [].
Proof. intros H. apply length_zero_iff_nil. rewrite length_skipn. lia. Qed.

(** Every row of the (sorted) table appears on exactly one page, in order:
    pages [1 .. totalPages] put end to end give back [sortedData], and no
    page holds more than [itemsPerPage] rows. *)
Theorem paginatedData_partition (l : list FreedomData) (k : nat) :
  0 < k ->
  concat (map (fun p => paginatedData l p k) (seq 1 (totalPages (length l) k))) = l /\
  (forall p, length (paginatedData l p k) <= k).
Proof.
  intros Hk. split.
  - rewrite pages_prefix. apply firstn_all2. apply totalPages_bounds, Hk.
  - intros p. rewrite paginatedData_window. apply firstn_le_length.
Qed.

(** The caption "Affichage de A à B" counts the rows of the page shown, on
    every page from 1 to [totalPages]; beyond [totalPages] (a page number
    left over after the table shrank) the page is empty and the caption's
    A exceeds its B. *)
Theorem paginatedData_caption (l : list FreedomData) (k p : nat) :
  0 < k -> 1 <= p ->
  (p <= totalPages (length l) k ->
     0 < length (paginatedData l p k) /\
     length (paginatedData l p k) = showingTo p k (length l) + 1 - showingFrom p k) /\
  (totalPages (length l) k < p ->
     paginatedData l p k = [] /\ showingTo p k (length l) < showingFrom p k).
Proof.
  intros Hk Hp. destruct (totalPages_bounds (length l) k Hk) as [B1 B2].
  rewrite paginatedData_window. unfold showingTo, showingFrom. split.
  - intros Hle. destruct (length l) as [|n] eqn:En.
    { unfold totalPages in Hle. replace (0 + k - 1) with (k - 1) in Hle by lia.
      rewrite Nat.div_small in Hle by lia. lia. }
    specialize (B2 ltac:(lia)).
    assert (Hs : (p - 1) * k < S n) by nia.
    rewrite length_firstn, length_skipn, En.
    replace (p * k) with ((p - 1) * k + k) by nia. split; lia.
  - intros Hgt. assert (Hs : length l <= (p - 1) * k) by nia.
    rewrite skipn_all_length by exact Hs. split; [destruct k; reflexivity|].
    replace (p * k) with ((p - 1) * k + k) by nia. lia.
Qed.

Lemma pageButtons_range (tp p : nat) :
  existsb (Nat.eqb p) (pageButtons tp) = true -> 1 <= p <= tp.
Proof.
  unfold pageButtons. intros H. apply existsb_exists in H as [x [Hx Hp]].
  apply Nat.eqb_eq in Hp. subst x. apply in_map_iff in Hx as [i [<- Hi]].
  apply in_seq in Hi. lia.
Qed.

Lemma run_pages_next (tp c n : nat) :
  1 <= c -> c + n <= tp -> run_pages tp c (repeat Next n) = c + n.
Proof.
  revert c; induction n as [|n IH]; intros c Hc Hn; simpl; [lia|].
  assert (E : Nat.eqb c tp = false) by (apply Nat.eqb_neq; lia). rewrite E. simpl.
  rewrite IH by lia. lia.
Qed.

(** Page navigation: from a page in [1 .. totalPages], any clicks on
    "Précédent", "Suivant" and the numbered buttons keep the current page in
    [1 .. totalPages]; every page, also those past the five numbered
    buttons, is reached from page 1 by clicking "Suivant"; and from a page
    past the end, "Suivant" brings the table back to its last page. *)
Theorem run_pages_spec (tp cp : nat) :
  1 <= cp <= tp ->
  (forall es, 1 <= run_pages tp cp es <= tp) /\
  (forall p, 1 <= p <= tp -> run_pages tp 1 (repeat Next (p - 1)) = p) /\
  (forall p, tp < p -> run_pages tp p [Next] = tp).
Proof.
  intros Hcp. split; [|split].
  - intros es. revert cp Hcp. induction es as [|e t IH]; intros cp Hcp; simpl; [exact Hcp|].
    apply IH. destruct (page_enabled tp cp e) eqn:En; [|exact Hcp].
    destruct e as [| |p]; simpl.
    + lia.
    + lia.
    + apply pageButtons_range, En.
  - intros p Hp. rewrite run_pages_next by lia. lia.
  - intros p Hp. simpl. assert (E : Nat.eqb p tp = false) by (apply Nat.eqb_neq; lia).
    rewrite E. simpl. lia.
Qed.

Definition page_rows : list FreedomData :=
  map (fun _ => mkFreedomData "Pays" "Europe" 2020 Libre 1 1 2) (seq 0 12).

Lemma paginatedData_partition_witness :
  concat (map (fun p => paginatedData page_rows p 5) (seq 1 (totalPages (length page_rows) 5)))
    = page_rows /\
  (forall p, length (paginatedData page_rows p 5) <= 5).
Proof. apply (paginatedData_partition page_rows 5). lia. Defined.

Lemma paginatedData_caption_witness :
  (3 <= totalPages (length page_rows) 5 ->
     0 < length (paginatedData page_rows 3 5) /\
     length (paginatedData page_rows 3 5) = showingTo 3 5 (length page_rows) + 1 - showingFrom 3 5) /\
  (totalPages (length page_rows) 5 < 3 ->
     paginatedData page_rows 3 5 = [] /\ showingTo 3 5 (length page_rows) < showingFrom 3 5).
Proof. apply (paginatedData_caption page_rows 5 3); lia. Defined.

Lemma run_pages_spec_witness :
  (forall es, 1 <= run_pages 3 2 es <= 3) /\
  (forall p, 1 <= p <= 3 -> run_pages 3 1 (repeat Next (p - 1)) = p) /\
  (forall p, 3 < p -> run_pages 3 p [Next] = 3).
Proof. apply (run_pages_spec 3 2). lia. Defined.

End PagingFacts.

Module TableSortFacts.
Import DataTable DataTablePaging DataTableFacts.
Local Open Scope Z_scope.
Local Open Scope list_scope.

Section CmpSort.
Context {A : Type}.
Variable cmp : A -> A -> Z.
Hypothesis cmp_flip : forall a b, 0 < cmp a b -> cmp b a <= 0.

Lemma insert_sorted_cmp (x : A) (l : list A) :
  Sorted (fun a b => cmp a b <= 0) l -> Sorted (fun a b => cmp a b <= 0) (insert cmp x l).
Proof.
  induction l as [|y t IH]; intros Hs; simpl.
  - repeat constructor.
  - destruct (cmp y x <=? 0) eqn:E.
    + apply Z.leb_le in E. apply Sorted_inv in Hs as [Ht Hh]. constructor; [apply IH, Ht|].
      destruct t as [|z t']; simpl; [constructor; exact E|].
      destruct (cmp z x <=? 0); constructor; [inversion Hh; assumption|exact E].
    + apply Z.leb_gt in E. constructor; [exact Hs|]. constructor. apply cmp_flip, E.
Qed.

Lemma sort_sorted_cmp (l : list A) : Sorted (fun a b => cmp a b <= 0) (sort cmp l).
Proof.
  unfold sort.
  assert (G : forall acc, Sorted (fun a b => cmp a b <= 0) acc ->
            Sorted (fun a b => cmp a b <= 0) (fold_left (fun acc x => insert cmp x acc) l acc)).
  { induction l as [|x t IH]; intros acc Hacc; simpl; [exact Hacc|].
    apply IH, insert_sorted_cmp, Hacc. }
  apply G. constructor.
Qed.

End CmpSort.

Lemma compareRows_flip (c : column) (dir : direction) (a b : FreedomData) :
  0 < compareRows c dir a b -> compareRows c dir b a <= 0.
Proof.
  unfold compareRows.
  destruct (field c a) as [|sa|xa|ba], (field c b) as [|sb|xb|bb];
    destruct dir; try lia;
    repeat match goal with |- context [String.ltb ?x ?y] => destruct (String.ltb x y) end; lia.
Qed.

Lemma column_eqb_spec (a b : column) : column_eqb a b = true <-> a = b.
Proof. destruct a, b; simpl; split; congruence. Qed.

(** A click on a column header makes that column the sort column, in
    ascending order unless it was already the sort column (then the order
    flips); the array shown afterwards holds the rows of the input and
    lists them in the order of the comparator for that column and direction
    (for a text column whose values are ASCII, so that lower-casing and the
    string order are the ones of JavaScript). *)
Theorem handleSort_sortedData (st : SortState) (c : column) (h : heap) (data : loc) :
  (forall d, In d (heap_read h data) -> is_ascii (to_string (field c d)) = true) ->
  let st' := handleSort st c in
  fst st' = Some c /\
  (fst st = Some c -> snd st' = match snd st with Asc => Desc | Desc => Asc end) /\
  (fst st <> Some c -> snd st' = Asc) /\
  (let '(h', out) := sortedData h data (fst st') (snd st') in
   Permutation (heap_read h data) (heap_read h' out) /\
   Sorted (fun a b => compareRows c (snd st') a b <= 0) (heap_read h' out)).
Proof.
  intros _. destruct st as [sc sd]. cbv zeta.
  assert (Hst : fst (handleSort (sc, sd) c) = Some c /\
                (sc = Some c -> snd (handleSort (sc, sd) c) = match sd with Asc => Desc | Desc => Asc end) /\
                (sc <> Some c -> snd (handleSort (sc, sd) c) = Asc)).
  { unfold handleSort. destruct sc as [c'|]; [|split; [reflexivity|split; [discriminate|reflexivity]]].
    destruct (column_eqb c' c) eqn:E.
    - apply column_eqb_spec in E. subst c'. split; [reflexivity|split; [reflexivity|congruence]].
    - split; [reflexivity|split; [|reflexivity]]. intros H. injection H as ->.
      assert (column_eqb c c = true) by (apply column_eqb_spec; reflexivity). congruence. }
  destruct Hst as (H1 & H2 & H3). simpl fst in *. simpl snd in *.
  split; [exact H1|split; [exact H2|split; [exact H3|]]].
  rewrite H1. simpl. unfold sort_in_place.
  assert (Hlen : (length h < length (h ++ [heap_read h data]))%nat).
  { rewrite length_app. simpl. lia. }
  rewrite heap_read_write_same by exact Hlen. rewrite heap_read_app_last. split.
  - apply AggFacts.sort_perm.
  - apply sort_sorted_cmp. apply compareRows_flip.
Qed.

Definition sort_heap : heap :=
  [[mkFreedomData "Chili" "Amerique" 2021 Libre 1 1 2;
    mkFreedomData "Bolivie" "Amerique" 2021 PartiellementLibre 3 4 7]].

Lemma handleSort_sortedData_witness :
  let '(h', out) := sortedData sort_heap 0%nat (Some Country) Asc in
  Permutation (heap_read sort_heap 0%nat) (heap_read h' out) /\
  Sorted (fun a b => compareRows Country Asc a b <= 0) (heap_read h' out).
Proof.
  exact (proj2 (proj2 (proj2 (handleSort_sortedData (None, Asc) Country sort_heap 0%nat
    ltac:(intros d Hd; simpl in Hd; intuition (subst; reflexivity)))))).
Defined.

End TableSortFacts.

Module DashboardFacts.
Import DataTable Dashboard.
Local Open Scope list_scope.

Lemma filter_filter_and {A} (f g : A -> bool) (l : list A) :
  filter f (filter g l) = filter (fun x => (g x && f x)%bool) l.
Proof.
  induction l as [|x t IH]; simpl; [reflexivity|].
  destruct (g x); simpl; [destruct (f x); simpl; rewrite IH; reflexivity|exact IH].
Qed.

Lemma filter_all {A} (f : A -> bool) (l : list A) :
  (forall x, f x = true) -> filter f l = l.
Proof. intros H. induction l as [|x t IH]; simpl; [reflexivity|]. rewrite H, IH. reflexivity. Qed.

Definition matches (search region status : string) (item : FreedomData) : bool :=
  ((String.eqb search "" || includes (toLowerCase (country item)) (toLowerCase search)) &&
   (String.eqb region "all" || String.eqb (Agg.region item) region) &&
   (String.eqb status "all" || String.eqb (Agg.status item) status))%bool.

Lemma applyFilters_filter (data : list FreedomData) (search region status : string) :
  applyFilters data search region status = filter (matches search region status) data.
Proof.
  unfold applyFilters, matches. cbv zeta. cbn [truthy].
  destruct (String.eqb search ""), (String.eqb region "all"), (String.eqb status "all");
    cbn [negb orb andb]; rewrite ?filter_filter_and.
  all: first [ reflexivity
             | symmetry; apply filter_all; intros; reflexivity
             | apply filter_ext; intros a; rewrite ?andb_true_r, ?andb_assoc; reflexivity ].
Qed.

Lemma prefixb_spec (p s : string) : prefixb p s = true <-> exists post, s = (p ++ post)%string.
Proof.
  revert s. induction p as [|a p IH]; intros s; simpl.
  - split; [intros _; exists s; reflexivity|reflexivity].
  - destruct s as [|b s'].
    + split; [discriminate|intros [post E]; discriminate].
    + rewrite andb_true_iff, IH. split.
      * intros [Hab [post ->]]. apply Ascii.eqb_eq in Hab. subst. exists post. reflexivity.
      * intros [post E]. injection E as -> ->. split; [apply Ascii.eqb_refl|exists post; reflexivity].
Qed.

Lemma includes_spec (s sub : string) :
  includes s sub = true <-> exists pre post, s = (pre ++ sub ++ post)%string.
Proof.
  induction s as [|c s IH].
  - simpl. rewrite orb_false_r, prefixb_spec. split.
    + intros [post E]. exists EmptyString, post. exact E.
    + intros [pre [post E]]. destruct pre; [exists post; exact E|discriminate].
  - cbn [includes]. rewrite orb_true_iff, prefixb_spec, IH. split.
    + intros [[post E]|[pre [post E]]].
      * exists EmptyString, post. exact E.
      * exists (String c pre), post. rewrite E. reflexivity.
    + intros [pre [post E]]. destruct pre as [|c' pre].
      * left. exists post. exact E.
      * right. injection E as -> E. exists pre, post. exact E.
Qed.

Lemma append_nil_r (s : string) : (s ++ "")%string = s.
Proof. induction s as [|c s IH]; simpl; [reflexivity|rewrite IH; reflexivity]. Qed.

(** The three filters combine into one: for an ASCII search text and ASCII
    country names (where [toLowerCase] is the JavaScript one), a record is
    kept exactly when it is in [data], its lower-cased country contains the
    lower-cased search text, and its region and status equal the selected
    ones (or these are "all"); with the initial values ["", "all", "all"]
    nothing is filtered out; filtering again with the same values changes
    nothing; and filtering by the search text first, then by region and
    status alone, gives the same records. *)
Theorem applyFilters_spec (data : list FreedomData) (search region status : string) :
  is_ascii search = true -> (forall d, In d data -> is_ascii (country d) = true) ->
  (forall item, In item (applyFilters data search region status) <->
     In item data /\
     (exists pre post, toLowerCase (country item) = (pre ++ toLowerCase search ++ post)%string) /\
     (region = "all" \/ Agg.region item = region) /\
     (status = "all" \/ Agg.status item = status))%string /\
  applyFilters data "" "all" "all" = data /\
  applyFilters (applyFilters data search region status) search region status
    = applyFilters data search region status /\
  applyFilters (applyFilters data search "all" "all") "" region status
    = applyFilters data search region status.
Proof.
  intros _ _. split; [|split; [|split]].
  - intros item. rewrite applyFilters_filter, filter_In. unfold matches.
    rewrite !andb_true_iff, !orb_true_iff, !String.eqb_eq, includes_spec.
    split.
    + intros [Hi [[[Hs|Hs] Hr] Hst]]; (split; [exact Hi|split; [|split; [destruct Hr; [left|right]; assumption|destruct Hst; [left|right]; assumption]]]).
      * subst search. exists (toLowerCase (country item)), EmptyString. simpl.
        rewrite append_nil_r. reflexivity.
      * exact Hs.
    + intros [Hi [Hs [Hr Hst]]]. split; [exact Hi|]. split; [split; [right; exact Hs|]|].
      * destruct Hr; [left|right]; assumption.
      * destruct Hst; [left|right]; assumption.
  - rewrite applyFilters_filter. apply filter_all. intros x. reflexivity.
  - rewrite !applyFilters_filter, filter_filter_and. apply filter_ext.
    intros x. destruct (matches _ _ _ x); reflexivity.
  - rewrite !applyFilters_filter, filter_filter_and. apply filter_ext.
    intros x. unfold matches. simpl (String.eqb "" "").
    change (String.eqb "all" "all") with true. cbn [orb andb].
    destruct (String.eqb search "" || includes (toLowerCase (country x)) (toLowerCase search))%bool;
      reflexivity.
Qed.

Definition filter_rows : list FreedomData :=
  [mkFreedomData "Chili" "Amerique" 2021 Libre 1 1 2;
   mkFreedomData "Chine" "Asie" 2021 PasLibre 7 6 13;
   mkFreedomData "Tchad" "Afrique" 2021 PasLibre 7 6 13].

Lemma applyFilters_spec_witness :
  applyFilters (applyFilters filter_rows "CH" "all" "all") "" "Asie" "all"
    = applyFilters filter_rows "CH" "Asie" "all" /\
  applyFilters filter_rows "CH" "Asie" "all" = [mkFreedomData "Chine" "Asie" 2021 PasLibre 7 6 13].
Proof.
  split; [|reflexivity].
  exact (proj2 (proj2 (proj2 (applyFilters_spec filter_rows "CH" "Asie" "all" eq_refl
    ltac:(intros d Hd; simpl in Hd; intuition (subst; reflexivity)))))).
Defined.

Definition inv (s : DashState) : Prop :=
  filteredData s = data s \/
  filteredData s = applyFilters (data s) (searchTerm s) (regionFilter s) (statusFilter s).

Lemma run_inv (es : list event) (s : DashState) : inv s -> inv (run s es).
Proof.
  unfold run. revert s. induction es as [|e t IH]; intros s Hs; simpl; [exact Hs|].
  apply IH. destruct e; unfold inv; simpl; [left|right..]; reflexivity.
Qed.

(** Whatever sequence of uploads, searches and menu choices the user makes,
    the collection handed to the table, the charts and the cards is either
    the loaded data itself (right after an upload, whatever filters are
    still selected) or [applyFilters] of the loaded data with the current
    search text, region and status; in both cases it is an
    order-preserving selection of the loaded records. *)
Theorem dashboard_filteredData (es : list event) :
  let s := run initial es in
  (filteredData s = data s \/
   filteredData s = applyFilters (data s) (searchTerm s) (regionFilter s) (statusFilter s)) /\
  exists p, filteredData s = filter p (data s).
Proof.
  cbv zeta. pose proof (run_inv es initial (or_introl eq_refl)) as H.
  split; [exact H|]. destruct H as [H|H].
  - exists (fun _ => true). rewrite H. symmetry. apply filter_all. reflexivity.
  - exists (matches (searchTerm (run initial es)) (regionFilter (run initial es))
             (statusFilter (run initial es))).
    rewrite H. apply applyFilters_filter.
Qed.

Lemma set_from_spec (seen xs : list string) :
  NoDup (set_from seen xs) /\
  (forall x, In x (set_from seen xs) <-> In x xs /\ ~ In x seen).
Proof.
  revert seen. induction xs as [|x t IH]; intros seen; simpl.
  - split; [constructor|tauto].
  - destruct (existsb (String.eqb x) seen) eqn:E.
    + destruct (IH seen) as [Hn Hi]. split; [exact Hn|]. intros y. rewrite Hi.
      apply existsb_exists in E as [z [Hz Hxz]]. apply String.eqb_eq in Hxz. subst z.
      split; [tauto|]. intros [[<-|Hy] Hs]; [contradiction|tauto].
    + destruct (IH (x :: seen)) as [Hn Hi].
      assert (Hx : ~ In x seen).
      { intros Hin. assert (existsb (String.eqb x) seen = true) by
          (apply existsb_exists; exists x; split; [exact Hin|apply String.eqb_refl]).
        congruence. }
      split.
      * constructor; [|exact Hn]. rewrite Hi. simpl. tauto.
      * intros y. simpl. rewrite Hi. simpl. split.
        -- intros [<-|[Hy Hs]]; [tauto|]. split; [tauto|]. intros Hys. apply Hs. right. exact Hys.
        -- intros [[<-|Hy] Hs]; [tauto|]. destruct (String.eqb_spec x y) as [<-|Hne]; [tauto|].
           right. split; [exact Hy|]. intros [E'|E']; [congruence|contradiction].
Qed.

End DashboardFacts.

Module DashboardFacts2.
Import StatsCards Dashboard DashboardFacts.

Lemma stats_uniqueRegions (data : list FreedomData) (s : Stats) :
  stats data = Ok (Some s) ->
  StatsCards.uniqueRegions s = Z.of_nat (length (nodup string_dec (map Agg.region data))).
Proof.
  unfold stats. destruct (Nat.eqb (length data) 0); [discriminate|]. cbv zeta.
  repeat match goal with
         | |- bind ?m _ = _ -> _ => destruct m; cbn [bind]; [|discriminate]
         end.
  intros H. injection H as <-. reflexivity.
Qed.

(** The region menu of the dashboard lists every region of the loaded
    records exactly once, and for the same collection its length is the
    region count shown by [StatsCards]. *)
Theorem uniqueRegions_spec (data : list FreedomData) :
  NoDup (Dashboard.uniqueRegions data) /\
  (forall r, In r (Dashboard.uniqueRegions data) <-> In r (map Agg.region data)) /\
  (forall s, stats data = Ok (Some s) ->
     StatsCards.uniqueRegions s = Z.of_nat (length (Dashboard.uniqueRegions data))).
Proof.
  destruct (set_from_spec [] (map Agg.region data)) as [Hn Hi].
  assert (Hi' : forall r, In r (Dashboard.uniqueRegions data) <-> In r (map Agg.region data)).
  { intros r. unfold Dashboard.uniqueRegions. rewrite Hi. simpl. tauto. }
  split; [exact Hn|split; [exact Hi'|]].
  intros s Hs. rewrite (stats_uniqueRegions data s Hs). f_equal.
  apply Nat.le_antisymm; apply NoDup_incl_length.
  - apply NoDup_nodup.
  - intros r Hr. apply Hi', (nodup_In string_dec), Hr.
  - exact Hn.
  - intros r Hr. apply (nodup_In string_dec), Hi', Hr.
Qed.

End DashboardFacts2.

Module RegionFacts.
Import DataVisualization AggFacts StatsFacts DistributionFacts TableSortFacts.
Local Open Scope Z_scope.
Local Open Scope list_scope.

(** A key of the counts has at least one record. *)
Lemma counts_pos (key : FreedomData -> string) (data : list FreedomData) (k : string) (v : Z) :
  In (k, v) (counts key data) -> 0 < v.
Proof.
  intros Hin. pose proof (counts_entry key data k v Hin) as Hv.
  apply (in_map fst) in Hin. cbn [fst] in Hin.
  apply (in_keys_group String.eqb String.eqb_eq key (fun _ => 0) bump) in Hin.
  apply in_map_iff in Hin as [d [Hk Hd]].
  assert (In d (filter (fun d => String.eqb (key d) k) data)).
  { apply filter_In. split; [exact Hd|]. apply String.eqb_eq, Hk. }
  destruct (filter (fun d => String.eqb (key d) k) data); [contradiction|].
  rewrite Hv. simpl. lia.
Qed.

Lemma Sorted_firstn {A} (R : A -> A -> Prop) (n : nat) (l : list A) :
  Sorted R l -> Sorted R (firstn n l).
Proof.
  revert n; induction l as [|x t IH]; intros n Hs; destruct n as [|n]; simpl; try solve [constructor].
  apply Sorted_inv in Hs as [Ht Hh]. constructor; [apply IH, Ht|].
  destruct t as [|y t'], n as [|n]; simpl; constructor. inversion Hh; assumption.
Qed.

Lemma Sorted_weaken {A} (R R' : A -> A -> Prop) (l : list A) :
  (forall a b, R a b -> R' a b) -> Sorted R l -> Sorted R' l.
Proof.
  intros HR Hs. induction Hs as [|x t Ht IH Hh]; constructor; [exact IH|].
  destruct Hh; constructor. apply HR. assumption.
Qed.

Lemma NoDup_firstn {A} (n : nat) (l : list A) : NoDup l -> NoDup (firstn n l).
Proof.
  intros H. rewrite <- (firstn_skipn n l) in H. apply NoDup_app_remove_r in H. exact H.
Qed.

Lemma StronglySorted_app {A} (R : A -> A -> Prop) (l1 l2 : list A) :
  StronglySorted R (l1 ++ l2) -> forall x y, In x l1 -> In y l2 -> R x y.
Proof.
  induction l1 as [|z t IH]; simpl; intros Hs x y Hx Hy; [contradiction|].
  apply StronglySorted_inv in Hs as [Ht Hz]. destruct Hx as [<-|Hx].
  - rewrite Forall_forall in Hz. apply Hz, in_or_app. right. exact Hy.
  - apply IH; assumption.
Qed.

Lemma in_firstn {A} (n : nat) (l : list A) (x : A) : In x (firstn n l) -> In x l.
Proof. intros H. rewrite <- (firstn_skipn n l). apply in_or_app. left. exact H. Qed.

Lemma Sorted_weaken_on {A} (P : A -> Prop) (R R' : A -> A -> Prop) (l : list A) :
  (forall a b, P a -> P b -> R a b -> R' a b) -> Forall P l -> Sorted R l -> Sorted R' l.
Proof.
  intros HR HP Hs. induction Hs as [|x t Ht IH Hh]; constructor.
  - apply IH. inversion HP; assumption.
  - destruct Hh as [|y t' Hxy]; constructor. inversion HP as [|? ? Px Pt]; subst.
    inversion Pt; subst. apply HR; assumption.
Qed.

Lemma count_order_flip (a b : RegionEntry) : 0 < count_order a b -> count_order b a <= 0.
Proof.
  unfold count_order. destruct (re_count a), (re_count b); lia.
Qed.

(** The entry built for the property [nv] of the tally. *)
Definition region_entry (data : list FreedomData) (nv : string * jsval) : RegionEntry :=
  let name := fst nv in
  let members := filter (in_region name) data in
  mkRegionEntry
    (if Nat.ltb 15 (utf16_length name) then utf16_prefix 15 name ++ "..." else name)
    name (snd nv)
    (to_double (inject_Z (reduce_sum politicalRights members) / inject_Z (Z.of_nat (length members))))
    (to_double (inject_Z (reduce_sum civilLiberties members) / inject_Z (Z.of_nat (length members)))).

(** [regionDistribution] never divides by zero and returns at most ten
    regions, each once, by non-increasing number of records; each entry's
    count is the number of records of its region and its averages are the
    double quotients of the sums over those records by that number; and a
    region of the data is left out only when ten regions are listed, each
    with at least as many records.  This holds when no region is the name
    of a property inherited from [Object.prototype]. *)
Theorem regionDistribution_top10 (data : list FreedomData) :
  (forall d, In d data -> inherited (region d) = false) ->
  exists out, regionDistribution data = Ok out /\
    (length out <= 10)%nat /\
    Sorted (fun a b => count (in_region (re_fullName b)) data
                       <= count (in_region (re_fullName a)) data) out /\
    NoDup (map re_fullName out) /\
    (forall e, In e out ->
       let members := filter (in_region (re_fullName e)) data in
       In (re_fullName e) (map region data) /\
       re_count e = JNum (count (in_region (re_fullName e)) data) /\
       re_avgPolitical e
         = to_double (inject_Z (reduce_sum politicalRights members)
                      / inject_Z (count (in_region (re_fullName e)) data)) /\
       re_avgCivil e
         = to_double (inject_Z (reduce_sum civilLiberties members)
                      / inject_Z (count (in_region (re_fullName e)) data))) /\
    (forall r, In r (map region data) -> ~ In r (map re_fullName out) ->
       length out = 10%nat /\
       forall e, In e out -> count (in_region r) data <= count (in_region (re_fullName e)) data).
Proof.
  intros Hinh.
  set (C := counts region data).
  pose proof (Permutation_sym (object_entries_perm (map numify C))) as HOp.
  apply Permutation_map_inv in HOp as [C' [HO HP]].
  assert (Hval : forall k v, In (k, v) C' -> v = count (in_region k) data /\ 0 < v).
  { intros k v Hin. apply (Permutation_in _ (Permutation_sym HP)) in Hin.
    split; [apply counts_entry in Hin; rewrite Hin; reflexivity|].
    apply (counts_pos region data k v Hin). }
  set (E := map (region_entry data) (map numify C')).
  set (S := sort count_order E).
  assert (HPE : Permutation E S) by apply sort_perm.
  assert (Hent : forall e, In e S -> exists k v, In (k, v) C' /\ e = region_entry data (k, JNum v)).
  { intros e He. apply (Permutation_in _ (Permutation_sym HPE)) in He.
    unfold E in He. rewrite map_map in He.
    apply in_map_iff in He as [[k v] [<- Hin]]. exists k, v. split; [exact Hin|reflexivity]. }
  assert (Hcnt : forall e, In e S ->
            re_count e = JNum (count (in_region (re_fullName e)) data) /\
            In (re_fullName e) (map fst C')).
  { intros e He. destruct (Hent e He) as [k [v [Hin ->]]]. cbn [region_entry re_count re_fullName fst snd].
    split; [rewrite (proj1 (Hval k v Hin)); reflexivity|].
    apply (in_map fst) in Hin. exact Hin. }
  assert (HS : Sorted (fun a b => count (in_region (re_fullName b)) data
                                  <= count (in_region (re_fullName a)) data) S).
  { apply (Sorted_weaken_on (fun e => In e S) (fun a b => count_order a b <= 0)).
    - intros a b Ha Hb Hab. unfold count_order in Hab.
      rewrite (proj1 (Hcnt a Ha)), (proj1 (Hcnt b Hb)) in Hab. lia.
    - apply Forall_forall. tauto.
    - apply sort_sorted_cmp, count_order_flip. }
  assert (HSS : StronglySorted (fun a b => count (in_region (re_fullName b)) data
                                           <= count (in_region (re_fullName a)) data) S).
  { apply Sorted_StronglySorted; [|exact HS]. intros a b c; lia. }
  assert (Hkeys : forall k, In k (map fst C') <-> In k (map region data)).
  { intros k. rewrite <- (in_keys_group String.eqb String.eqb_eq region (fun _ => 0) bump).
    fold (counts region data). fold C.
    split; apply Permutation_in; [symmetry|]; apply Permutation_map; exact HP. }
  exists (firstn 10 S). split.
  { unfold regionDistribution. rewrite tally_counts by exact Hinh. fold C. rewrite HO.
    rewrite (mapM_map _ (region_entry data)); [reflexivity|].
    intros x Hx. apply in_map_iff in Hx as [[k v] [<- Hin]].
    destruct (Hval k v Hin) as [Hv Hpos].
    unfold count in Hv. cbn [numify fst snd].
    rewrite !jsdiv_ok by lia. reflexivity. }
  split; [apply firstn_le_length|]. split; [apply Sorted_firstn, HS|]. split.
  { rewrite <- firstn_map. apply NoDup_firstn.
    apply (Permutation_NoDup (Permutation_map re_fullName HPE)).
    unfold E. rewrite !map_map. change (fun x => re_fullName (region_entry data (numify x))) with (@fst string Z).
    apply (Permutation_NoDup (Permutation_map fst HP)).
    apply nodup_group, String.eqb_eq. }
  split.
  { intros e He. cbv zeta. apply in_firstn in He.
    destruct (Hcnt e He) as [Hc Hk].
    destruct (Hent e He) as [k [v [Hin ->]]].
    cbn [region_entry re_fullName re_count re_avgPolitical re_avgCivil fst snd] in *.
    destruct (Hval k v Hin) as [Hv _].
    split; [apply Hkeys, Hk|]. split; [exact Hc|].
    unfold count. split; reflexivity. }
  intros r Hr Hnot.
  apply Hkeys in Hr. apply in_map_iff in Hr as [[r' v] [Heq HinC]].
  simpl in Heq. subst r'.
  assert (HerS : In (region_entry data (r, JNum v)) S).
  { apply (Permutation_in _ HPE). unfold E. rewrite map_map. apply (in_map (fun x => region_entry data (numify x)) _ _ HinC). }
  assert (Hskip : In (region_entry data (r, JNum v)) (skipn 10 S)).
  { rewrite <- (firstn_skipn 10 S) in HerS. apply in_app_or in HerS as [H|H]; [|exact H].
    exfalso. apply Hnot. change r with (re_fullName (region_entry data (r, JNum v))). apply in_map, H. }
  split.
  - rewrite length_firstn. assert (length (skipn 10 S) <> 0%nat) by (destruct (skipn 10 S); simpl in *; [contradiction|discriminate]).
    rewrite length_skipn in H. lia.
  - intros e He. rewrite <- (firstn_skipn 10 S) in HSS.
    pose proof (StronglySorted_app _ _ _ HSS e _ He Hskip) as Hle.
    exact Hle.
Qed.

Definition region_rows : list FreedomData :=
  [mkFreedomData "Chili" "Amerique" 2021 "Libre" 1 1 2;
   mkFreedomData "Chine" "Asie" 2021 "Pas libre" 7 6 13;
   mkFreedomData "Inde" "Asie" 2021 "Partiellement libre" 2 3 5].

Lemma regionDistribution_top10_witness :
  exists out, regionDistribution region_rows = Ok out /\ (length out <= 10)%nat /\
    NoDup (map re_fullName out).
Proof.
  destruct (regionDistribution_top10 region_rows
    ltac:(intros d Hd; simpl in Hd; intuition (subst; reflexivity)))
    as [out [E [L [_ [N _]]]]].
  exists out. split; [exact E|split; [exact L|exact N]].
Defined.
End RegionFacts.

Module ProtoFacts.
Import Agg DataVisualization DistributionFacts.
Local Open Scope Z_scope.

Lemma lookup_In (o : object) (k : string) (v : jsval) :
  lookup String.eqb o k = Some v -> In (k, v) o.
Proof.
  induction o as [|[k0 v0] t IH]; simpl; intros H; [discriminate|].
  destruct (String.eqb_spec k0 k) as [->|Hne]; [injection H as ->; left; reflexivity|].
  right. apply IH, H.
Qed.

Lemma In_assign (o : object) (k k' : string) (v v' : jsval) :
  In (k', v') (assign String.eqb o k v) -> (k' = k /\ v' = v) \/ In (k', v') o.
Proof.
  induction o as [|[k0 v0] t IH]; simpl; intros H.
  - destruct H as [H|[]]. injection H as -> ->. left. split; reflexivity.
  - destruct (String.eqb_spec k0 k) as [->|Hne].
    + destruct H as [H|H]; [injection H as -> ->; left; split; reflexivity|right; right; exact H].
    + destruct H as [H|H]; [right; left; exact H|].
      destruct (IH H) as [E|E]; [left; exact E|right; right; exact E].
Qed.

(** What the tally object holds: no own [__proto__] property, and a
    non-empty text under every inherited name. *)
Definition proto_ok (o : object) : Prop :=
  ~ In "__proto__" (map fst o) /\
  forall k v, In (k, v) o -> inherited k = true -> exists t, v = JStr t /\ t <> ""%string.

Lemma inherited_string_nonempty (k : string) : inherited_string k <> ""%string.
Proof.
  unfold inherited_string.
  destruct (String.eqb k "__proto__"); [discriminate|].
  destruct (String.eqb k "constructor"); discriminate.
Qed.

Lemma append_one_nonempty (t : string) : (t ++ "1")%string <> ""%string.
Proof. destruct t; discriminate. Qed.

Lemma js_or_text (t : string) (b : jsval) : t <> ""%string -> js_or (JStr t) b = JStr t.
Proof.
  intros H. unfold js_or, truthy. destruct (String.eqb_spec t ""); [contradiction|reflexivity].
Qed.

Lemma tally_step_ok (o : object) (k : string) :
  proto_ok o -> proto_ok (dict_set o k (plus_one (js_or (dict_get o k) (JNum 0)))).
Proof.
  intros [Hp Hi]. unfold dict_set.
  destruct (String.eqb_spec k "__proto__") as [->|Hk]; [split; assumption|].
  split.
  - intros Hin. apply in_map_iff in Hin as [[k' v'] [E Hin]]. simpl in E. subst k'.
    destruct (In_assign _ _ _ _ _ Hin) as [[E _]|E]; [congruence|].
    apply Hp. apply in_map_iff. exists ("__proto__"%string, v'). split; [reflexivity|exact E].
  - intros k' v' Hin Hk'. destruct (In_assign _ _ _ _ _ Hin) as [[-> ->]|E]; [|exact (Hi _ _ E Hk')].
    unfold dict_get. destruct (lookup String.eqb o k) as [v|] eqn:L.
    + apply lookup_In in L. destruct (Hi _ _ L Hk') as [t [-> Ht]].
      rewrite js_or_text by exact Ht. exists (t ++ "1")%string.
      split; [reflexivity|apply append_one_nonempty].
    + rewrite Hk', js_or_text by apply inherited_string_nonempty.
      exists (inherited_string k ++ "1")%string. split; [reflexivity|apply append_one_nonempty].
Qed.

Lemma tally_ok (key : FreedomData -> string) (data : list FreedomData) : proto_ok (tally key data).
Proof.
  unfold tally.
  assert (G : forall acc, proto_ok acc ->
            proto_ok (fold_left (fun acc item =>
              dict_set acc (key item) (plus_one (js_or (dict_get acc (key item)) (JNum 0)))) data acc)).
  { induction data as [|d t IH]; intros acc Ha; simpl; [exact Ha|]. apply IH, tally_step_ok, Ha. }
  apply G. split; [intros []|intros k v []].
Qed.

Lemma mapM_in {A B} (f : A -> res B) (l : list A) (ys : list B) :
  mapM f l = Ok ys -> forall y, In y ys -> exists x, In x l /\ f x = Ok y.
Proof.
  revert ys. induction l as [|x t IH]; intros ys H y Hy; simpl in H.
  - injection H as <-. contradiction.
  - destruct (f x) as [y0|] eqn:Fx; [|discriminate]. cbn [bind] in H.
    destruct (mapM f t) as [ys0|] eqn:Ft; [|discriminate]. cbn [bind] in H.
    injection H as <-. destruct Hy as [<-|Hy].
    + exists x. split; [left; reflexivity|exact Fx].
    + destruct (IH ys0 eq_refl y Hy) as [x' [Hx' Fx']]. exists x'. split; [right; exact Hx'|exact Fx'].
Qed.




(** Regions named like properties of [Object.prototype]: a region
    "__proto__" is never listed, and a listed region with another
    inherited name, such as "constructor", has a text as its count. *)
Theorem regionDistribution_inherited (data : list FreedomData) (out : list RegionEntry) :
  regionDistribution data = Ok out ->
  ~ In "__proto__"%string (map re_fullName out) /\
  forall e, In e out -> inherited (re_fullName e) = true -> exists t, re_count e = JStr t.
Proof.
  intros H. destruct (tally_ok region data) as [Hp Hi].
  unfold regionDistribution in H.
  destruct (mapM _ (object_entries (tally region data))) as [entries|] eqn:M; cbn [bind] in H; [|discriminate].
  injection H as <-.
  assert (G : forall e, In e (firstn 10 (sort count_order entries)) ->
             In (re_fullName e, re_count e) (tally region data)).
  { intros e He. apply RegionFacts.in_firstn in He.
    apply (Permutation_in _ (Permutation_sym (AggFacts.sort_perm _ _))) in He.
    destruct (mapM_in _ _ _ M e He) as [[n v] [Hin Fe]].
    apply (Permutation_in _ (Permutation_sym (object_entries_perm _))) in Hin.
    cbn beta in Fe. destruct (jsdiv _ _); cbn [bind] in Fe; [|discriminate].
    destruct (jsdiv _ _); cbn [bind] in Fe; [|discriminate].
    injection Fe as <-. exact Hin. }
  split.
  - intros Hin. apply in_map_iff in Hin as [e [En He]]. apply Hp.
    rewrite <- En. apply in_map_iff. exists (re_fullName e, re_count e).
    split; [reflexivity|exact (G e He)].
  - intros e He Hk. destruct (Hi _ _ (G e He) Hk) as [t [E _]]. exists t. exact E.
Qed.

Definition proto_regions : list FreedomData :=
  [mkFreedomData "Chili" "Amerique" 2021 "Libre" 1 1 2;
   mkFreedomData "X" "__proto__" 2021 "Libre" 1 1 2;
   mkFreedomData "Y" "constructor" 2021 "Libre" 1 3 4].

Lemma regionDistribution_inherited_witness :
  exists out, regionDistribution proto_regions = Ok out /\
    map re_fullName out = ["Amerique"; "constructor"]%string /\
    ~ In "__proto__"%string (map re_fullName out) /\
    forall e, In e out -> inherited (re_fullName e) = true -> exists t, re_count e = JStr t.
Proof.
  destruct (regionDistribution proto_regions) as [out|] eqn:E; [|vm_compute in E; discriminate].
  exists out. split; [reflexivity|]. split; [vm_compute in E; injection E as <-; reflexivity|].
  exact (regionDistribution_inherited proto_regions out E).
Defined.

End ProtoFacts.

Module DigitFacts.
Local Open Scope N_scope.






End DigitFacts.

Module TrendFacts.
Import StatsCards AggFacts StatsFacts YearlyFacts TableSortFacts DigitFacts.
Local Open Scope Z_scope.
Local Open Scope list_scope.







Lemma year_keys (data : list FreedomData) (y : Z) :
  In y (map fst (yearlyData data)) <-> In y (map year data).
Proof. rewrite yearlyData_group. apply (in_keys_group Z.eqb Z.eqb_eq). Qed.

Lemma trendOf_single_year (data : list FreedomData) :
  (forall a b, In a data -> In b data -> year a = year b) -> trendOf data = Ok "stable".
Proof.
  intros Hsame. unfold trendOf. cbv zeta.
  pose proof (sort_perm default_cmp (map fst (yearlyData data))) as HP.
  pose proof (nodup_group Z.eqb Z.eqb_eq year (fun _ => yd_zero) yd_step data) as Hn.
  rewrite <- yearlyData_group in Hn.
  destruct (sort default_cmp (map fst (yearlyData data))) as [|y0 [|y1 rest]] eqn:Es;
    [reflexivity|reflexivity|exfalso].
  apply (Permutation_NoDup HP) in Hn. inversion Hn as [|? ? Hnin _]; subst.
  apply Hnin. left.
  assert (K : forall y, In y (y0 :: y1 :: rest) -> In y (map year data)).
  { intros y Hy. apply year_keys. apply (Permutation_in _ (Permutation_sym HP)), Hy. }
  destruct (proj1 (in_map_iff _ _ _) (K y0 (or_introl eq_refl))) as [a [<- Ha]].
  destruct (proj1 (in_map_iff _ _ _) (K y1 (or_intror (or_introl eq_refl)))) as [b [<- Hb]].
  apply Hsame; assumption.
Qed.



(** ** Trend with a single year: when all records share one year,
    the trend of [StatsCards] is "stable", whatever the scores. *)
Theorem trendOf_same_year (data : list FreedomData) :
  (forall a b, In a data -> In b data -> year a = year b) -> trendOf data = Ok "stable".
Proof. apply trendOf_single_year. Qed.



Definition same_year_rows : list FreedomData :=
  [mkFreedomData "A" "Europe" 2020 Libre 1 1 2;
   mkFreedomData "B" "Asie" 2020 PasLibre 7 7 14].

Lemma trendOf_same_year_witness : trendOf same_year_rows = Ok "stable".
Proof.
  apply trendOf_same_year. intros a b Ha Hb. simpl in Ha, Hb.
  intuition (subst; reflexivity).
Defined.

End TrendFacts.

Module ParseFacts.
Local Open Scope N_scope.

Definition is_digit_char (c : ascii) : Prop := exists d, d < 10 /\ c = digit_char d.

Lemma digit_value_char (d : N) : d < 10 -> digit_value 10 (digit_char d) = Some (Z.of_N d).
Proof.
  intros Hd.
  assert (E : d = 0 \/ d = 1 \/ d = 2 \/ d = 3 \/ d = 4 \/ d = 5 \/ d = 6 \/ d = 7 \/ d = 8 \/ d = 9)
    by lia.
  repeat destruct E as [->|E]; try reflexivity. subst. reflexivity.
Qed.

Lemma size_nat_bound (p : positive) : Npos p < 2 ^ N.of_nat (Pos.size_nat p).
Proof.
  induction p as [p IH|p IH|]; cbn [Pos.size_nat]; rewrite ?Nat2N.inj_succ, ?N.pow_succ_r'; lia.
Qed.

Lemma digits_fuel (n : N) : n < 10 ^ N.of_nat (S (N.size_nat n)).
Proof.
  destruct n as [|p]; [simpl; lia|].
  pose proof (size_nat_bound p) as H. cbn [N.size_nat].
  assert (2 ^ N.of_nat (Pos.size_nat p) <= 10 ^ N.of_nat (Pos.size_nat p))
    by (apply N.pow_le_mono_l; lia).
  rewrite Nat2N.inj_succ, N.pow_succ_r'. lia.
Qed.

Lemma read_digits_cons (c : ascii) (d : N) (t : list ascii) (acc : option Z) :
  d < 10 -> c = digit_char d ->
  read_digits 10 (string_of_list (c :: t)) acc =
  read_digits 10 (string_of_list t) (Some (10 * match acc with Some a => a | None => 0 end + Z.of_N d)%Z).
Proof. intros Hd ->. simpl. rewrite digit_value_char by exact Hd. reflexivity. Qed.

Lemma read_digits_aux (f : nat) : forall (n : N) (acc : list ascii),
  n < 10 ^ N.of_nat f -> f <> 0%nat ->
  read_digits 10 (string_of_list (digits_aux f n acc)) None =
  read_digits 10 (string_of_list acc) (Some (Z.of_N n)).
Proof.
  induction f as [|f IH]; intros n acc Hn Hf; [contradiction|].
  cbn [digits_aux]. destruct (N.ltb n 10) eqn:E.
  - apply N.ltb_lt in E. rewrite (read_digits_cons _ (n mod 10)) by (try reflexivity; apply N.mod_lt; lia).
    rewrite N.mod_small by exact E. f_equal.
  - apply N.ltb_ge in E.
    assert (Hf' : f <> 0%nat).
    { intros ->. simpl in Hn. lia. }
    assert (Hq : n / 10 < 10 ^ N.of_nat f).
    { apply N.Div0.div_lt_upper_bound. rewrite Nat2N.inj_succ, N.pow_succ_r' in Hn. lia. }
    rewrite IH by assumption.
    rewrite (read_digits_cons _ (n mod 10)) by (try reflexivity; apply N.mod_lt; lia).
    f_equal. f_equal. pose proof (N.div_mod n 10 ltac:(lia)). lia.
Qed.

Lemma read_N_to_string (n : N) : read_digits 10 (N_to_string n) None = Some (Z.of_N n).
Proof.
  unfold N_to_string, digits. rewrite read_digits_aux; [reflexivity|apply digits_fuel|discriminate].
Qed.

Lemma digits_aux_chars (f : nat) : forall (n : N) (acc : list ascii),
  Forall is_digit_char acc -> Forall is_digit_char (digits_aux f n acc).
Proof.
  induction f as [|f IH]; intros n acc Ha; cbn [digits_aux]; [exact Ha|].
  assert (Hc : Forall is_digit_char (digit_char (n mod 10) :: acc)).
  { constructor; [|exact Ha]. exists (n mod 10). split; [apply N.mod_lt; lia|reflexivity]. }
  destruct (N.ltb n 10); [exact Hc|apply IH, Hc].
Qed.

Lemma digits_aux_nonempty (f : nat) : forall (n : N) (acc : list ascii),
  acc <> [] -> digits_aux f n acc <> [].
Proof.
  induction f as [|f IH]; intros n acc Ha; cbn [digits_aux]; [exact Ha|].
  destruct (N.ltb n 10); [discriminate|apply IH; discriminate].
Qed.

Lemma N_to_string_shape (n : N) :
  exists c t, N_to_string n = string_of_list (c :: t) /\ is_digit_char c /\ Forall is_digit_char t.
Proof.
  unfold N_to_string, digits. cbn [digits_aux].
  pose proof (digits_aux_chars (N.size_nat n) (n / 10) [digit_char (n mod 10)]) as H.
  assert (H0 : is_digit_char (digit_char (n mod 10))) by (exists (n mod 10); split; [apply N.mod_lt; lia|reflexivity]).
  destruct (N.ltb n 10).
  - exists (digit_char (n mod 10)), []. split; [reflexivity|split; [exact H0|constructor]].
  - specialize (H (Forall_cons _ H0 (Forall_nil _))).
    pose proof (digits_aux_nonempty (N.size_nat n) (n / 10) [digit_char (n mod 10)] ltac:(discriminate)) as Hne.
    destruct (digits_aux (N.size_nat n) (n / 10) [digit_char (n mod 10)]) as [|c t].
    + contradiction.
    + inversion H; subst. exists c, t. split; [reflexivity|split; assumption].
Qed.

Ltac digit_cases d :=
  let E := fresh in
  assert (E : d = 0 \/ d = 1 \/ d = 2 \/ d = 3 \/ d = 4 \/ d = 5 \/ d = 6 \/ d = 7 \/ d = 8 \/ d = 9)
    by lia;
  repeat destruct E as [->|E]; [..|subst d].

(** The part of [parseInt] after the sign, on a digit string: radix 10. *)
Lemma parse_digits (c : ascii) (t : list ascii) :
  is_digit_char c -> Forall is_digit_char t ->
  match string_of_list (c :: t) with
  | String "0" (String x t') =>
      if (Ascii.eqb x "x" || Ascii.eqb x "X")%bool then (16%Z, t') else (10%Z, string_of_list (c :: t))
  | _ => (10%Z, string_of_list (c :: t))
  end = (10%Z, string_of_list (c :: t)).
Proof.
  intros [d [Hd ->]] Ht.
  destruct t as [|c2 t2]; [digit_cases d; reflexivity|].
  inversion Ht as [|? ? [d2 [Hd2 ->]] _]; subst.
  digit_cases d; try reflexivity. digit_cases d2; reflexivity.
Qed.

Lemma trim_start_digits (c : ascii) (t : list ascii) :
  is_digit_char c -> trim_start (string_of_list (c :: t)) = string_of_list (c :: t).
Proof. intros [d [Hd ->]]. digit_cases d; reflexivity. Qed.

Lemma sign_digits (c : ascii) (t : list ascii) :
  is_digit_char c ->
  match string_of_list (c :: t) with
  | String "-" t' => ((-1)%Z, t')
  | String "+" t' => (1%Z, t')
  | _ => (1%Z, string_of_list (c :: t))
  end = (1%Z, string_of_list (c :: t)).
Proof. intros [d [Hd ->]]. digit_cases d; reflexivity. Qed.

Local Open Scope Z_scope.

(** [parseInt] reads back every integer below 10^21 in absolute value
    from its decimal form: a number cell as it is, a text cell rounded to
    a double. *)
Lemma parseInt_decimal (v : jsval) (z : Z) :
  Z.abs z < 10 ^ 21 -> to_string v = num_to_string z ->
  parseInt v = Some (match v with JNum _ => z | _ => round_int z end).
Proof.
  intros Hz Hv.
  unfold parseInt. rewrite Hv. unfold num_to_string.
  replace (N.ltb (Z.to_N (Z.abs z)) (N.pow 10 21)) with true.
  2:{ symmetry. apply N.ltb_lt. change (N.pow 10 21) with (Z.to_N (10 ^ 21)).
      apply Z2N.inj_lt; lia. }
  destruct (N_to_string_shape (Z.to_N (Z.abs z))) as [c [t [Hs [Hc Ht]]]].
  rewrite Hs. destruct (Z.ltb z 0) eqn:Ez.
  - change ("-" ++ string_of_list (c :: t)) with (String "-" (string_of_list (c :: t))).
    change (trim_start (String "-" (string_of_list (c :: t)))) with (String "-" (string_of_list (c :: t))).
    cbv beta iota. rewrite (parse_digits c t Hc Ht). cbv beta iota.
    rewrite <- Hs, read_N_to_string. rewrite Z2N.id by lia.
    apply Z.ltb_lt in Ez. replace (-1 * Z.abs z) with z by lia. reflexivity.
  - change ("" ++ string_of_list (c :: t)) with (string_of_list (c :: t)).
    rewrite (trim_start_digits c t Hc). rewrite (sign_digits c t Hc).
    cbv beta iota. rewrite (parse_digits c t Hc Ht). cbv beta iota.
    rewrite <- Hs, read_N_to_string. rewrite Z2N.id by lia.
    apply Z.ltb_ge in Ez. replace (1 * Z.abs z) with z by lia. reflexivity.
Qed.

(** The number-to-text and text-to-number conversions of the upload agree:
    [parseInt] returns an integer cell (below 10^21 in absolute value) as it
    is; on the decimal text [String(z)] of that integer, negative numbers
    included, it returns [z] rounded to a double, which is [z] itself when
    [|z| <= 2^53]. *)
Theorem parseInt_roundtrip (z : Z) :
  Z.abs z < 10 ^ 21 ->
  parseInt (JNum z) = Some z /\
  parseInt (JStr (num_to_string z)) = Some (round_int z) /\
  (Z.abs z <= 2 ^ 53 -> parseInt (JStr (num_to_string z)) = Some z).
Proof.
  intros Hz.
  pose proof (parseInt_decimal (JStr (num_to_string z)) z Hz eq_refl) as Hs.
  split; [exact (parseInt_decimal (JNum z) z Hz eq_refl)|].
  split; [exact Hs|].
  intros Hb. rewrite Hs, DoubleFacts.round_int_small by exact Hb. reflexivity.
Qed.

Lemma parseInt_roundtrip_witness :
  (parseInt (JNum (-2021)) = Some (-2021) /\
   parseInt (JStr (num_to_string (-2021))) = Some (round_int (-2021)) /\
   (Z.abs (-2021) <= 2 ^ 53 -> parseInt (JStr (num_to_string (-2021))) = Some (-2021))) /\
  parseInt (JStr (num_to_string 9007199254740993)) = Some 9007199254740992.
Proof.
  split.
  - apply (parseInt_roundtrip (-2021)). reflexivity.
  - destruct (parseInt_roundtrip 9007199254740993 ltac:(reflexivity)) as [_ [H _]].
    rewrite H. vm_compute. reflexivity.
Defined.

End ParseFacts.

Module IngestFacts.
Import FileUpload FileUploadFacts ParseFacts.
Local Open Scope Z_scope.










End IngestFacts.

Module StatsAvgFacts.
Import StatsCards StatsFacts YearlyFacts DoubleFacts.
Local Open Scope Z_scope.

Lemma stats_averages (data : list FreedomData) (s : Stats) :
  stats data = Ok (Some s) ->
  let n := inject_Z (Z.of_nat (length data)) in
  data <> [] /\
  avgPoliticalRights s = toFixed1 (to_double (inject_Z (reduce_sum politicalRights data) / n)) /\
  avgCivilLiberties s = toFixed1 (to_double (inject_Z (reduce_sum civilLiberties data) / n)) /\
  avgTotalScore s = toFixed1 (to_double (inject_Z (reduce_sum totalScore data) / n)).
Proof.
  unfold stats. destruct (Nat.eqb (length data) 0) eqn:E; [discriminate|].
  apply Nat.eqb_neq in E. cbv zeta.
  rewrite !jsdiv_ok by lia. cbn [bind].
  repeat match goal with
         | |- bind ?m _ = _ -> _ => destruct m; cbn [bind]; [|discriminate]
         end.
  intros H. injection H as <-. split; [|repeat split].
  intros ->. apply E. reflexivity.
Qed.

Lemma sum_bound (f : FreedomData -> Z) (B : Z) (l : list FreedomData) :
  (forall d, In d l -> Z.abs (f d) <= B) ->
  Z.abs (fold_right (fun d s => f d + s) 0 l) <= Z.of_nat (length l) * B.
Proof.
  induction l as [|d t IH]; intros H; cbn [fold_right length]; [simpl; lia|].
  rewrite Nat2Z.inj_succ.
  pose proof (H d (or_introl eq_refl)).
  pose proof (IH (fun x Hx => H x (or_intror Hx))). lia.
Qed.

Lemma sum_total (l : list FreedomData) :
  (forall d, In d l -> totalScore d = politicalRights d + civilLiberties d) ->
  fold_right (fun d s => totalScore d + s) 0 l =
  fold_right (fun d s => politicalRights d + s) 0 l + fold_right (fun d s => civilLiberties d + s) 0 l.
Proof.
  induction l as [|d t IH]; intros H; [reflexivity|]. cbn [fold_right].
  rewrite IH by (intros x Hx; apply H; right; exact Hx).
  rewrite (H d (or_introl eq_refl)). lia.
Qed.

Lemma avg_bound (S N B : Z) : 0 < N -> Z.abs S <= N * B ->
  (Qabs (inject_Z S / inject_Z N) <= inject_Z B)%Q.
Proof.
  intros HN HS.
  assert (PN : (0 < inject_Z N)%Q) by (unfold Qlt; simpl; lia).
  apply Qabs_Qle_condition. split.
  - apply Qle_shift_div_l; [exact PN|].
    rewrite <- inject_Z_opp, <- inject_Z_mult, <- Zle_Qle. lia.
  - apply Qle_shift_div_r; [exact PN|].
    rewrite <- inject_Z_mult, <- Zle_Qle. lia.
Qed.

(** When every record's total score is the sum of its two ratings (as the
    upload computes it), the ratings are at most 2^16 in absolute value and
    there are fewer than 2^32 records, the average total score shown by
    [StatsCards] differs from the sum of the two average ratings shown by
    at most one tenth: the sums are exact in doubles, and the three
    [toFixed(1)] roundings add at most 3/2 tenths, the divisions less. *)
Theorem stats_avg_total (data : list FreedomData) (s : Stats) :
  (forall d, In d data -> totalScore d = politicalRights d + civilLiberties d) ->
  (forall d, In d data -> Z.abs (politicalRights d) <= 2 ^ 16 /\ Z.abs (civilLiberties d) <= 2 ^ 16) ->
  Z.of_nat (length data) < 2 ^ 32 ->
  stats data = Ok (Some s) ->
  Z.abs (avgTotalScore s - (avgPoliticalRights s + avgCivilLiberties s)) <= 1.
Proof.
  intros Ht Hb HN Hs. apply stats_averages in Hs as (Hne & Hp & Hc & Htot).
  assert (Bp : forall d, In d data -> Z.abs (politicalRights d) <= 2 ^ 16) by (intros d Hd; apply Hb, Hd).
  assert (Bc : forall d, In d data -> Z.abs (civilLiberties d) <= 2 ^ 16) by (intros d Hd; apply Hb, Hd).
  assert (Bt : forall d, In d data -> Z.abs (totalScore d) <= 2 ^ 17).
  { intros d Hd. rewrite (Ht d Hd). pose proof (Bp d Hd). pose proof (Bc d Hd). lia. }
  assert (N0 : 0 < Z.of_nat (length data)) by (destruct data; [congruence|simpl; lia]).
  rewrite (reduce_sum_exact politicalRights (2 ^ 16)) in Hp by (first [exact Bp|lia]).
  rewrite (reduce_sum_exact civilLiberties (2 ^ 16)) in Hc by (first [exact Bc|lia]).
  rewrite (reduce_sum_exact totalScore (2 ^ 17)) in Htot by (first [exact Bt|lia]).
  rewrite sum_total in Htot by exact Ht.
  pose proof (sum_bound politicalRights _ data Bp) as SBp.
  pose proof (sum_bound civilLiberties _ data Bc) as SBc.
  set (SP := fold_right (fun d s => politicalRights d + s) 0 data) in *.
  set (SC := fold_right (fun d s => civilLiberties d + s) 0 data) in *.
  set (N := Z.of_nat (length data)) in *.
  set (x := (inject_Z SP / inject_Z N)%Q) in *.
  set (y := (inject_Z SC / inject_Z N)%Q) in *.
  set (z := (inject_Z (SP + SC) / inject_Z N)%Q) in *.
  assert (PN : (0 < inject_Z N)%Q) by (unfold Qlt; simpl; lia).
  assert (Ez : (z == x + y)%Q).
  { unfold x, y, z. rewrite inject_Z_plus. field. intros E. rewrite E in PN. discriminate. }
  assert (Ax : (Qabs x <= inject_Z (2 ^ 16))%Q) by (apply avg_bound; lia).
  assert (Ay : (Qabs y <= inject_Z (2 ^ 16))%Q) by (apply avg_bound; lia).
  assert (Az : (Qabs z <= inject_Z (2 ^ 17))%Q) by (apply avg_bound; lia).
  change (inject_Z (2 ^ 16)) with (65536 # 1) in Ax, Ay.
  change (inject_Z (2 ^ 17)) with (131072 # 1) in Az.
  pose proof (to_double_error x) as Dx. pose proof (to_double_error y) as Dy.
  pose proof (to_double_error z) as Dz.
  rewrite DistributionFacts.pow2_m53 in Dx, Dy, Dz.
  pose proof DistributionFacts.pow2_m1075 as [E0 E1].
  pose proof (Qabs_nonneg x). pose proof (Qabs_nonneg y). pose proof (Qabs_nonneg z).
  pose proof (toFixed1_close (to_double x)) as Cx. pose proof (toFixed1_close (to_double y)) as Cy.
  pose proof (toFixed1_close (to_double z)) as Cz.
  rewrite <- Hp in Cx. rewrite <- Hc in Cy. rewrite <- Htot in Cz.
  apply Qabs_Qle_condition in Cx, Cy, Cz, Dx, Dy, Dz.
  set (t := avgTotalScore s) in *. set (p := avgPoliticalRights s) in *.
  set (c := avgCivilLiberties s) in *.
  assert (B : (inject_Z t - inject_Z p - inject_Z c < 2 /\ -(2) < inject_Z t - inject_Z p - inject_Z c)%Q)
    by (split; nra).
  assert (Eu : (inject_Z (t - p - c) == inject_Z t - inject_Z p - inject_Z c)%Q) by (unfold Qeq; simpl; lia).
  rewrite <- Eu in B. destruct B as [B1 B2].
  assert (t - p - c <= 1).
  { destruct (Z_le_gt_dec (t - p - c) 1) as [L|L]; [exact L|exfalso].
    assert (L' : (inject_Z 2 <= inject_Z (t - p - c))%Q) by (rewrite <- Zle_Qle; lia).
    change (inject_Z 2) with 2%Q in L'. lra. }
  assert (-1 <= t - p - c).
  { destruct (Z_le_gt_dec (-1) (t - p - c)) as [L|L]; [exact L|exfalso].
    assert (L' : (inject_Z (t - p - c) <= inject_Z (-2))%Q) by (rewrite <- Zle_Qle; lia).
    change (inject_Z (-2)) with (-2)%Q in L'. lra. }
  lia.
Qed.

Definition avg_rows : list FreedomData :=
  [mkFreedomData "A" "Europe" 2020 Libre 1 2 3;
   mkFreedomData "B" "Europe" 2020 Libre 2 2 4;
   mkFreedomData "C" "Asie" 2020 PasLibre 6 7 13].

Lemma stats_avg_total_witness :
  exists s, stats avg_rows = Ok (Some s) /\
    Z.abs (avgTotalScore s - (avgPoliticalRights s + avgCivilLiberties s)) <= 1.
Proof.
  destruct (stats avg_rows) as [[s|]|] eqn:E; [|vm_compute in E; discriminate..].
  exists s. split; [reflexivity|].
  apply (stats_avg_total avg_rows s); [| |reflexivity|exact E].
  - intros d Hd. simpl in Hd. intuition (subst; reflexivity).
  - intros d Hd. simpl in Hd. intuition (subst; simpl; lia).
Defined.

End StatsAvgFacts.

Module RegionMenuFacts.
Import DataTable Dashboard DashboardFacts.
Local Open Scope list_scope.

(** Choosing a region of the menu, with no search text and status "all",
    keeps exactly the records of that region, and at least one, unless the
    region is itself named "all", which the filter takes as "no filter". *)
Theorem region_option_selects (data : list FreedomData) (r : string) :
  In r (Dashboard.uniqueRegions data) -> r <> "all" ->
  applyFilters data "" r "all" = filter (fun d => String.eqb (Agg.region d) r) data /\
  applyFilters data "" r "all" <> [].
Proof.
  intros Hr Hall.
  assert (E : applyFilters data "" r "all" = filter (fun d => String.eqb (Agg.region d) r) data).
  { unfold applyFilters. cbn [truthy]. simpl negb.
    replace (String.eqb r "all") with false by (symmetry; apply String.eqb_neq; exact Hall).
    reflexivity. }
  split; [exact E|]. rewrite E.
  unfold Dashboard.uniqueRegions in Hr.
  apply (proj2 (set_from_spec [] (map Agg.region data))) in Hr as [Hr _].
  apply in_map_iff in Hr as [d [Hd Hin]].
  intros Hnil. assert (In d (filter (fun d => String.eqb (Agg.region d) r) data)).
  { apply filter_In. split; [exact Hin|]. apply String.eqb_eq, Hd. }
  rewrite Hnil in H. contradiction.
Qed.

Definition menu_rows : list FreedomData :=
  [mkFreedomData "Chili" "Amérique" 2020 Libre 1 1 2;
   mkFreedomData "Bénin" "Afrique" 2020 PartiellementLibre 3 3 6;
   mkFreedomData "Uruguay" "Amérique" 2020 Libre 1 1 2].

Lemma region_option_selects_witness :
  applyFilters menu_rows "" "Amérique" "all"
    = filter (fun d => String.eqb (Agg.region d) "Amérique") menu_rows /\
  applyFilters menu_rows "" "Amérique" "all" <> [].
Proof.
  apply (region_option_selects menu_rows "Amérique").
  - vm_compute. left. reflexivity.
  - discriminate.
Defined.

End RegionMenuFacts.
